(** * TranscodeBot: the append-only container of package [build]

    A shallow embedding of [BinAppender] and [BinAppendExtractor], the two
    halves of the container of package [build], over an explicit model of
    the operating-system file layer the two are written against.

    Conventions.
    - Go's [int64] offsets are [Z]; the conversions [uint64(x)] and
      [int64(x)] are written out with their wrap-around.
    - A pointer to an [os.File] is [file_ptr]: the nil pointer or a
      descriptor number.
    - Every function that touches the file system takes the [World] and
      returns the new one.  A system call may fail: the [World] carries the
      list of outcomes the next system calls will have (empty: they all
      succeed), and a trace of the system calls performed.
    - Go functions returning [(x, err)] return a pair whose second component
      is [option error] ([None] is Go's [nil] error).
    - The mutex of [BinAppender] serialises its methods; the embedding is
      sequential, so [Lock]/[Unlock] do not appear. *)

From Stdlib Require Import ZArith Lia.
From Stdlib Require Import Strings.Byte.
From stdpp Require Import base option list gmap strings fin_maps.

Local Open Scope Z_scope.

(** ** Bytes and fixed-width integers *)

Abbreviation byte := Byte.byte.

Definition byte_of_Z (z : Z) : byte :=
  match Byte.of_N (Z.to_N (z mod 256)) with
  | Some b => b
  | None => Byte.x00
  end.

Definition Z_of_byte (b : byte) : Z := Z.of_N (Byte.to_N b).

(** [uint64(x)] and [int64(x)] of Go, on mathematical integers. *)
Definition uint64 (z : Z) : Z := z mod 2 ^ 64.
Definition int64 (z : Z) : Z := (z + 2 ^ 63) mod 2 ^ 64 - 2 ^ 63.

Definition int64_range (z : Z) : Prop := - 2 ^ 63 <= z < 2 ^ 63.

(** [binary.LittleEndian.PutUint64] and [binary.LittleEndian.Uint64]. *)
Definition PutUint64 (v : Z) : list byte :=
  [ byte_of_Z v;
    byte_of_Z (Z.shiftr v 8);
    byte_of_Z (Z.shiftr v 16);
    byte_of_Z (Z.shiftr v 24);
    byte_of_Z (Z.shiftr v 32);
    byte_of_Z (Z.shiftr v 40);
    byte_of_Z (Z.shiftr v 48);
    byte_of_Z (Z.shiftr v 56) ].

Definition Uint64 (b : list byte) : Z :=
  match b with
  | [b0; b1; b2; b3; b4; b5; b6; b7] =>
      Z.lor (Z_of_byte b0)
     (Z.lor (Z.shiftl (Z_of_byte b1) 8)
     (Z.lor (Z.shiftl (Z_of_byte b2) 16)
     (Z.lor (Z.shiftl (Z_of_byte b3) 24)
     (Z.lor (Z.shiftl (Z_of_byte b4) 32)
     (Z.lor (Z.shiftl (Z_of_byte b5) 40)
     (Z.lor (Z.shiftl (Z_of_byte b6) 48)
            (Z.shiftl (Z_of_byte b7) 56)))))))
  | _ => 0
  end.

(** ** Errors *)

Inductive error : Type :=
  | EIO                                  (* a failing system call *)
  | ENOENT                               (* open: no such file *)
  | EINVAL                               (* seek to a negative offset *)
  | EBADF                                (* write through a read-only handle *)
  | ErrInvalid                           (* method of a nil os.File *)
  | ErrClosed                            (* method of a closed os.File *)
  | EOF                                  (* io.EOF *)
  | ErrGzipHeader                        (* gzip.NewReader: not a gzip stream *)
  | ErrGzipData                          (* gzip.Reader.Read: corrupt stream *)
  | ErrJson                              (* json.Decoder.Decode failed *)
  | Errorf (msg : string) (args : list string)   (* errors.Errorf / errors.New *)
  | Wrap (msg : string) (cause : error). (* errors.Wrap / errors.Wrapf *)

(** What a Go call does: it returns, or it panics. *)
Inductive go_result (A : Type) : Type :=
  | Returns (a : A)
  | Panics.
Arguments Returns {A} a.
Arguments Panics {A}.

(** ** The file layer *)

Inductive file_ptr : Type :=
  | nil_file
  | fd (n : nat).

Record OpenFile : Type := mkOpenFile {
  of_path : string;
  of_pos : nat;
  of_writable : bool
}.

Inductive syscall : Type :=
  | SysOpen (path : string)
  | SysSeek (n : nat)
  | SysRead (n : nat)
  | SysWrite (n : nat)
  | SysClose (n : nat).

(** The outcome injected into a system call: it goes through, or it fails;
    a failing write has first written [partial] bytes of its buffer, a
    failing read has first delivered [partial] bytes. *)
Inductive fault : Type :=
  | Pass
  | Fail (partial : nat).

Record World : Type := mkWorld {
  files : gmap string (list byte);
  handles : gmap nat OpenFile;
  next_fd : nat;
  faults : list fault;
  trace : list syscall
}.

Definition set_handles (h : gmap nat OpenFile) (w : World) : World :=
  mkWorld (files w) h (next_fd w) (faults w) (trace w).

(** Entering a system call: it is traced and takes the next outcome. *)
Definition sys_enter (c : syscall) (w : World) : fault * World :=
  (match faults w with [] => Pass | f :: _ => f end,
   mkWorld (files w) (handles w) (next_fd w) (tail (faults w)) (trace w ++ [c])).

(** The contents of the file at [path]; a missing file reads as empty. *)
Definition contents (w : World) (path : string) : list byte :=
  default [] (files w !! path).

(** Bytes [b] stored at offset [pos]: what was there is overwritten, a gap
    past the end is filled with zeros. *)
Definition write_at (pos : nat) (b c : list byte) : list byte :=
  take pos c ++ replicate (pos - length c) Byte.x00 ++ b ++ drop (pos + length b) c.

(** [os.OpenFile(name, flag, perm)] without [O_CREATE]; [writable] is
    [O_RDWR]. *)
Definition os_OpenFile (name : string) (writable : bool) (w : World)
  : (file_ptr * option error) * World :=
  let '(flt, w) := sys_enter (SysOpen name) w in
  match flt with
  | Fail _ => ((nil_file, Some EIO), w)
  | Pass =>
      match files w !! name with
      | None => ((nil_file, Some ENOENT), w)
      | Some _ =>
          let n := next_fd w in
          ((fd n, None),
           mkWorld (files w) (<[n := mkOpenFile name 0 writable]> (handles w))
                   (S n) (faults w) (trace w))
      end
  end.

(** [os.Open(name)]: read-only. *)
Definition os_Open (name : string) (w : World) : (file_ptr * option error) * World :=
  os_OpenFile name false w.

Inductive whence : Type := SeekStart | SeekEnd.

(** [File.Seek(offset, whence)]. *)
Definition File_Seek (f : file_ptr) (offset : Z) (wh : whence) (w : World)
  : (Z * option error) * World :=
  match f with
  | nil_file => ((0, Some ErrInvalid), w)
  | fd n =>
      match handles w !! n with
      | None => ((0, Some ErrClosed), w)
      | Some h =>
          let '(flt, w) := sys_enter (SysSeek n) w in
          match flt with
          | Fail _ => ((0, Some EIO), w)
          | Pass =>
              let base := match wh with
                          | SeekStart => 0
                          | SeekEnd => Z.of_nat (length (contents w (of_path h)))
                          end in
              let target := base + offset in
              if target <? 0 then ((0, Some EINVAL), w)
              else ((target, None),
                    set_handles (<[n := mkOpenFile (of_path h) (Z.to_nat target)
                                                    (of_writable h)]> (handles w)) w)
          end
      end
  end.

(** [File.Read(p)] with [len(p) = size]: the bytes delivered. *)
Definition File_Read (f : file_ptr) (size : nat) (w : World)
  : (list byte * option error) * World :=
  match f with
  | nil_file => (([], Some ErrInvalid), w)
  | fd n =>
      match handles w !! n with
      | None => (([], Some ErrClosed), w)
      | Some h =>
          let '(flt, w) := sys_enter (SysRead n) w in
          let avail := take size (drop (of_pos h) (contents w (of_path h))) in
          match flt with
          | Fail k =>
              let got := take k avail in
              ((got, Some EIO),
               set_handles (<[n := mkOpenFile (of_path h) (of_pos h + length got)%nat
                                               (of_writable h)]> (handles w)) w)
          | Pass =>
              match avail, size with
              | [], S _ => (([], Some EOF), w)
              | _, _ =>
                  ((avail, None),
                   set_handles (<[n := mkOpenFile (of_path h) (of_pos h + length avail)%nat
                                                   (of_writable h)]> (handles w)) w)
              end
          end
      end
  end.

(** Reading a handle up to end of file, as [io.Copy] and [ioutil.ReadAll]
    do: the end of file is not an error. *)
Definition File_ReadToEnd (f : file_ptr) (w : World)
  : (list byte * option error) * World :=
  match f with
  | nil_file => (([], Some ErrInvalid), w)
  | fd n =>
      match handles w !! n with
      | None => (([], Some ErrClosed), w)
      | Some h =>
          let '(flt, w) := sys_enter (SysRead n) w in
          let avail := drop (of_pos h) (contents w (of_path h)) in
          let got := match flt with Pass => avail | Fail k => take k avail end in
          ((got, match flt with Pass => None | Fail _ => Some EIO end),
           set_handles (<[n := mkOpenFile (of_path h) (of_pos h + length got)%nat
                                           (of_writable h)]> (handles w)) w)
      end
  end.

(** [File.Write(b)]: the number of bytes written. *)
Definition File_Write (f : file_ptr) (b : list byte) (w : World)
  : (nat * option error) * World :=
  match f with
  | nil_file => ((0%nat, Some ErrInvalid), w)
  | fd n =>
      match handles w !! n with
      | None => ((0%nat, Some ErrClosed), w)
      | Some h =>
          let '(flt, w) := sys_enter (SysWrite n) w in
          if of_writable h then
            let put := match flt with Pass => b | Fail k => take k b end in
            let c := write_at (of_pos h) put (contents w (of_path h)) in
            ((length put, match flt with Pass => None | Fail _ => Some EIO end),
             mkWorld (<[of_path h := c]> (files w))
                     (<[n := mkOpenFile (of_path h) (of_pos h + length put)%nat true]>
                        (handles w))
                     (next_fd w) (faults w) (trace w))
          else ((0%nat, Some EBADF), w)
      end
  end.

(** [File.Close()]. The descriptor is released even when the system
    call reports an error. *)
Definition File_Close (f : file_ptr) (w : World) : option error * World :=
  match f with
  | nil_file => (Some ErrInvalid, w)
  | fd n =>
      match handles w !! n with
      | None => (Some ErrClosed, w)
      | Some h =>
          let '(flt, w) := sys_enter (SysClose n) w in
          (match flt with Pass => None | Fail _ => Some EIO end,
           set_handles (delete n (handles w)) w)
      end
  end.

(** An [io.Reader] handed to the appender: bytes in memory followed by end
    of file or by a read error, or an open file read from its offset. The
    data is finite, as [AppendStreamReader] requires of its source; a file
    is read as it stands when the copy starts. *)
Inductive Reader : Type :=
  | BytesReader (data : list byte) (err : option error)
  | FileReader (f : file_ptr).

(** Draining a reader, as the read side of [io.Copy] does. *)
Definition Reader_drain (r : Reader) (w : World) : (list byte * option error) * World :=
  match r with
  | BytesReader data err => ((data, err), w)
  | FileReader f => File_ReadToEnd f w
  end.

(** ** The container index *)

Record appendedData : Type := mk_appendedData {
  StartFilePtr : Z;
  ZippedSize : Z
}.

Definition METADATA_VERSION : string := "0.1".

Record appendedMetadata : Type := mk_appendedMetadata {
  Version : string;
  Data : gmap string appendedData
}.

(** ** The libraries the container is built on

    [compress/gzip] and [encoding/json] are used through their interfaces;
    the laws are the ones the container relies on. *)

Class GzipLib : Type := {
  (** the stream a [gzip.Writer] has produced once it is closed *)
  gzip : list byte → list byte;
  (** how much of that stream has reached the underlying writer before
      [Close] (the rest is flushed by [Close]) *)
  gzip_flushed : list byte → nat;
  (** [gzip.NewReader] accepts the stream's header *)
  gzip_header_ok : list byte → bool;
  (** reading a [gzip.Reader] over the stream up to end of file *)
  gunzip : list byte → option (list byte);
  gzip_header : ∀ d, gzip_header_ok (gzip d) = true;
  gunzip_gzip : ∀ d, gunzip (gzip d) = Some d;
  gzip_nonempty : ∀ d, gzip d ≠ []
}.

(** The metadata [encoding/json] carries unchanged: strings it does not
    have to coerce (valid UTF-8, in Go) and integers of the [int64] fields. *)
Definition json_faithful (text_ok : string → Prop) (m : appendedMetadata) : Prop :=
  text_ok (Version m) ∧
  ∀ name d, Data m !! name = Some d →
    text_ok name ∧ int64_range (StartFilePtr d) ∧ int64_range (ZippedSize d).

Class JsonLib : Type := {
  (** [json.Marshal(metadata)]; it cannot fail on this type *)
  json_Marshal : appendedMetadata → list byte;
  (** [json.NewDecoder(r).Decode(&metadata)] on the bytes [r] delivers: the
      first JSON value is decoded, what follows it is left alone *)
  json_Decode : list byte → option appendedMetadata;
  json_text_ok : string → Prop;
  json_version_ok : json_text_ok METADATA_VERSION;
  json_Decode_Marshal : ∀ m rest,
    json_faithful json_text_ok m → json_Decode (json_Marshal m ++ rest) = Some m
}.

(** ** BinAppender *)

Definition duplicate_msg : string := "file %s has already been added to appender".

Module BinAppender.

Record t : Type := mk {
  fileHandle : file_ptr;
  metadata : appendedMetadata
}.

Definition set_Data (appender : t) (name : string) (d : appendedData) : t :=
  mk (fileHandle appender)
     (mk_appendedMetadata (Version (metadata appender))
                          (<[name := d]> (Data (metadata appender)))).

(** [io.Copy(gzWriter, source)]: the source is drained into the gzip
    writer, which passes on what it has ready. Returns the data consumed. *)
Definition io_Copy `{!GzipLib} (dest : file_ptr) (source : Reader) (w : World)
  : (list byte * option error) * World :=
  let '((d, rerr), w) := Reader_drain source w in
  match take (gzip_flushed d) (gzip d) with
  | [] => ((d, rerr), w)
  | out =>
      let '((_, werr), w) := File_Write dest out w in
      ((d, match werr with Some e => Some e | None => rerr end), w)
  end.

(** [gzWriter.Close()]: the rest of the stream is written out. *)
Definition gzWriter_Close `{!GzipLib} (dest : file_ptr) (d : list byte) (w : World)
  : option error * World :=
  let '((_, werr), w) := File_Write dest (drop (gzip_flushed d) (gzip d)) w in
  (werr, w).

Definition AppendStreamReader `{!GzipLib}
    (appender : t) (name : string) (source : Reader) (w : World)
  : (t * option error) * World :=
  let '((startPtr, err), w) := File_Seek (fileHandle appender) 0 SeekEnd w in
  match err with
  | Some e => ((appender, Some e), w)
  | None =>
      let '((d, err), w) := io_Copy (fileHandle appender) source w in
      match err with
      | Some e => ((appender, Some e), w)
      | None =>
          let '(_, w) := gzWriter_Close (fileHandle appender) d w in
          let '((endPtr, err), w) := File_Seek (fileHandle appender) 0 SeekEnd w in
          match err with
          | Some e => ((appender, Some e), w)
          | None =>
              let fileMetadata :=
                mk_appendedData startPtr (int64 (endPtr - startPtr)) in
              ((set_Data appender name fileMetadata, None), w)
          end
      end
  end.

Definition AppendFile `{!GzipLib} (appender : t) (source : string) (w : World)
  : (t * option error) * World :=
  let '((sourceHandle, err), w) := os_Open source w in
  match err with
  | Some e => ((appender, Some e), w)
  | None =>
      match Data (metadata appender) !! source with
      | Some _ =>
          ((appender, Some (Errorf duplicate_msg [source])), w)
      | None =>
          let '((appender, err), w) :=
            AppendStreamReader appender source (FileReader sourceHandle) w in
          match err with
          | Some e => ((appender, Some e), w)
          | None =>
              let '(err, w) := File_Close sourceHandle w in
              ((appender, err), w)
          end
      end
  end.

Definition Close `{!JsonLib} (appender : t) (w : World) : option error * World :=
  let '((jsonPtr, err), w) := File_Seek (fileHandle appender) 0 SeekEnd w in
  match err with
  | Some e => (Some e, w)
  | None =>
      let jsonPtrBytes := PutUint64 (uint64 jsonPtr) in
      let jsonBytes := json_Marshal (metadata appender) in
      let '((_, err), w) := File_Write (fileHandle appender) jsonBytes w in
      match err with
      | Some e => (Some e, w)
      | None =>
          let '((_, err), w) := File_Write (fileHandle appender) jsonPtrBytes w in
          match err with
          | Some e => (Some e, w)
          | None => File_Close (fileHandle appender) w
          end
      end
  end.

End BinAppender.

Definition MakeAppender (filename : string) (w : World)
  : (option BinAppender.t * option error) * World :=
  let '((fileHandle, err), w) := os_OpenFile filename true w in
  match err with
  | Some e => ((None, Some e), w)
  | None =>
      ((Some (BinAppender.mk fileHandle (mk_appendedMetadata METADATA_VERSION ∅)), None), w)
  end.

(** ** BinAppendReader and BinAppendExtractor *)

(** A [gzip.Reader] over the length-bounded view of the block. Its buffered
    reader fetches the block when the header is read, so the reader carries
    the compressed bytes it was given. *)
Record gzip_Reader : Type := mk_gzip_Reader { gz_stream : list byte }.

(** [gzip.NewReader(io.LimitReader(f, size))]: the bounded view delivers at
    most [size] bytes from the handle's offset, and none for [size <= 0];
    the header is checked on them. *)
Definition gzip_NewReader `{!GzipLib} (f : file_ptr) (size : Z) (w : World)
  : (gzip_Reader + error) * World :=
  let '((block, err), w) := File_Read f (Z.to_nat size) w in
  match err with
  | Some e => (inr e, w)
  | None =>
      if gzip_header_ok block then (inl (mk_gzip_Reader block), w)
      else (inr ErrGzipHeader, w)
  end.

Module BinAppendReader.

Record t : Type := mk {
  Name : string;
  fileHandle : file_ptr;
  gzReader : gzip_Reader
}.

(** [ioutil.ReadAll(reader)], that is [reader.Read] up to end of file.
    The receiver is a pointer: [None] is the nil reader, whose field
    access panics. *)
Definition ReadAll `{!GzipLib} (reader : option t)
  : go_result (list byte * option error) :=
  match reader with
  | None => Panics
  | Some r =>
      match gunzip (gz_stream (gzReader r)) with
      | Some data => Returns (data, None)
      | None => Returns ([], Some ErrGzipData)
      end
  end.

(** [reader.Close()] is [reader.fileHandle.Close()]: on the nil reader the
    field access is a nil-pointer dereference. *)
Definition Close (reader : option t) (w : World) : go_result (option error) * World :=
  match reader with
  | None => (Panics, w)
  | Some r => let '(err, w) := File_Close (fileHandle r) w in (Returns err, w)
  end.

End BinAppendReader.

Definition not_found_msg : string := "Could not find name %s".
Definition version_mismatch_msg : string :=
  "BinAppender reader version %s does not match version %s on file %s ".

Module BinAppendExtractor.

Record t : Type := mk {
  filename : string;
  metadata : appendedMetadata
}.

Definition GetReader `{!GzipLib} (extractor : t) (dataName : string) (w : World)
  : (option BinAppendReader.t * option error) * World :=
  match Data (metadata extractor) !! dataName with
  | None => ((None, Some (Errorf not_found_msg [dataName])), w)
  | Some entry =>
      let '((fileHandle, err), w) := os_Open (filename extractor) w in
      match err with
      | Some e => ((None, Some (Wrap "opening reader filehandle" e)), w)
      | None =>
          let '((_, err), w) := File_Seek fileHandle (StartFilePtr entry) SeekStart w in
          match err with
          | Some e => ((None, Some (Wrap "seeking in file" e)), w)
          | None =>
              let '(gzReader, w) := gzip_NewReader fileHandle (ZippedSize entry) w in
              match gzReader with
              | inr e => ((None, Some (Wrap "creating gzip reader" e)), w)
              | inl gz => ((Some (BinAppendReader.mk "" fileHandle gz), None), w)
              end
          end
      end
  end.

(** The deferred [func() { _ = reader.Close() }()] runs when [ByteArray]
    returns, whatever it returns; if it panics, so does [ByteArray]. *)
Definition deferred_Close {A : Type} (reader : option BinAppendReader.t)
    (ret : A) (w : World) : go_result A * World :=
  match BinAppendReader.Close reader w with
  | (Returns _, w) => (Returns ret, w)
  | (Panics, w) => (Panics, w)
  end.

Definition ByteArray `{!GzipLib} (extractor : t) (dataName : string) (w : World)
  : go_result (list byte * option error) * World :=
  let '((reader, err), w) := GetReader extractor dataName w in
  match err with
  | Some e =>
      deferred_Close reader ([], Some (Wrap "Generating reader for reading ByteArray" e)) w
  | None =>
      match BinAppendReader.ReadAll reader with
      | Panics => (Panics, w)
      | Returns (data, Some e) =>
          deferred_Close reader ([], Some (Wrap "Reading all data in" e)) w
      | Returns (data, None) =>
          match BinAppendReader.Close reader w with
          | (Panics, w) => (Panics, w)
          | (Returns (Some e), w) => deferred_Close reader ([], Some e) w
          | (Returns None, w) => deferred_Close reader (data, None) w
          end
      end
  end.

End BinAppendExtractor.

Definition MakeAppendExtractor `{!JsonLib} (filename : string) (w : World)
  : (option BinAppendExtractor.t * option error) * World :=
  let '((fileHandle, err), w) := os_Open filename w in
  match err with
  | Some e =>
      let '(_, w) := File_Close fileHandle w in
      ((None, Some (Wrap "Open file" e)), w)
  | None =>
      let '((_, err), w) := File_Seek fileHandle (-8) SeekEnd w in
      match err with
      | Some e =>
          let '(_, w) := File_Close fileHandle w in
          ((None, Some (Wrap "Seek in file" e)), w)
      | None =>
          let '((metadataPtrBytes, err), w) := File_Read fileHandle 8 w in
          match err with
          | Some e =>
              let '(_, w) := File_Close fileHandle w in
              ((None, Some (Wrap "Read metadata pointer" e)), w)
          | None =>
              if negb (length metadataPtrBytes =? 8)%nat then
                let '(_, w) := File_Close fileHandle w in
                ((None,
                  Some (Errorf "Read %d bytes instead of 8 for metadata pointer location" [])),
                 w)
              else
                let metadataPtr := int64 (Uint64 metadataPtrBytes) in
                let '((_, err), w) := File_Seek fileHandle metadataPtr SeekStart w in
                match err with
                | Some e =>
                    let '(_, w) := File_Close fileHandle w in
                    ((None, Some (Wrap "Seek in file (metadata location)" e)), w)
                | None =>
                    let '((stream, err), w) := File_ReadToEnd fileHandle w in
                    match err, json_Decode stream with
                    | Some e, _ =>
                        let '(_, w) := File_Close fileHandle w in
                        ((None, Some (Wrap "Json Decode" e)), w)
                    | None, None =>
                        let '(_, w) := File_Close fileHandle w in
                        ((None, Some (Wrap "Json Decode" ErrJson)), w)
                    | None, Some metadata =>
                        if negb (String.eqb (Version metadata) METADATA_VERSION) then
                          let '(_, w) := File_Close fileHandle w in
                          ((None,
                            Some (Errorf version_mismatch_msg
                                    [METADATA_VERSION; Version metadata; filename])), w)
                        else
                          let '(err, w) := File_Close fileHandle w in
                          match err with
                          | Some e => ((None, Some (Wrap "Closing" e)), w)
                          | None =>
                              ((Some (BinAppendExtractor.mk filename metadata), None), w)
                          end
                    end
                end
          end
      end
  end.

(** ** ReadStuff and writeCounter *)

(** [os.Stdout]: the file opened on descriptor 1. *)
Definition os_Stdout : file_ptr := fd 1.

(** What a gzip reader has delivered when it stops on a stream that is not
    a valid one. *)
Class GzipReaderLib : Type := {
  gunzip_partial : list byte → list byte
}.

(** [io.Copy(os.Stdout, gzReader)]: the bytes the reader delivers are
    written to the standard output; nothing is written when there are
    none.  The count is the number of bytes written and the error the
    first that occurred, writing or reading. *)
Definition io_Copy_Stdout `{!GzipLib} `{!GzipReaderLib} (gz : gzip_Reader) (w : World)
  : (Z * option error) * World :=
  let '(data, rerr) :=
    match gunzip (gz_stream gz) with
    | Some data => (data, None)
    | None => (gunzip_partial (gz_stream gz), Some ErrGzipData)
    end in
  match data with
  | [] => ((0, rerr), w)
  | _ =>
      let '((n, werr), w) := File_Write os_Stdout data w in
      ((Z.of_nat n, match werr with Some e => Some e | None => rerr end), w)
  end.

(** [common.Println] belongs to a package that is not part of this unit:
    [ReadStuff] takes it as [Println], what printing the given values does
    to the world.  [readFile] is not closed on any path. *)
Definition ReadStuff `{!GzipLib} `{!GzipReaderLib} (Println : list Z → World → World)
    (start size : Z) (path : string) (w : World) : option error * World :=
  let '((readFile, err), w) := os_Open path w in
  match err with
  | Some e => (Some e, w)
  | None =>
      let '((_, err), w) := File_Seek readFile start SeekStart w in
      match err with
      | Some e => (Some e, w)
      | None =>
          let '(gzReader, w) := gzip_NewReader readFile size w in
          match gzReader with
          | inr e => (Some e, w)
          | inl gz =>
              let '((num, err), w) := io_Copy_Stdout gz w in
              let w := Println [] w in
              let w := Println [num] w in
              (err, w)
          end
      end
  end.

(** An [io.Writer]: its [Write] method. *)
Definition Writer : Type := list byte → World → (nat * option error) * World.

Module writeCounter.

Record t : Type := mk {
  Counter : Z;
  child : Writer
}.

(** [atomic.AddInt64(&w.Counter, int64(n))] after the child's [Write]; the
    receiver is a pointer, the updated counter is returned with the
    result. *)
Definition Write (w : t) (p : list byte) (world : World)
  : (t * (nat * option error)) * World :=
  let '((n, err), world) := child w p world in
  ((mk (int64 (Counter w + int64 (Z.of_nat n))) (child w), (n, err)), world).

End writeCounter.

Definition newWriteCounter (child : Writer) : writeCounter.t := writeCounter.mk 0 child.

(** ** Clients of the two components

    The properties of the container are about sequences of calls: blocks
    appended one after the other, the appender closed, an extractor made
    for the file. *)

(** One [AppendStreamReader] call per named byte sequence, in order; the
    first error stops the client. *)
Fixpoint AppendAll `{!GzipLib} (appender : BinAppender.t)
    (items : list (string * list byte)) (w : World)
  : (BinAppender.t * option error) * World :=
  match items with
  | [] => ((appender, None), w)
  | (name, data) :: rest =>
      let '((appender, err), w) :=
        BinAppender.AppendStreamReader appender name (BytesReader data None) w in
      match err with
      | Some e => ((appender, Some e), w)
      | None => AppendAll appender rest w
      end
  end.

(** [MakeAppender], then the appends: the appender as it stands before
    [Close]. *)
Definition fill_container `{!GzipLib} (filename : string)
    (items : list (string * list byte)) (w : World)
  : (option BinAppender.t * option error) * World :=
  let '((appender, err), w) := MakeAppender filename w in
  match appender, err with
  | Some a, None =>
      let '((a, err), w) := AppendAll a items w in ((Some a, err), w)
  | _, _ => ((None, err), w)
  end.

(** [MakeAppender], the appends, [Close]. *)
Definition write_container `{!GzipLib} `{!JsonLib} (filename : string)
    (items : list (string * list byte)) (w : World) : option error * World :=
  let '((appender, err), w) := fill_container filename items w in
  match appender, err with
  | Some a, None => BinAppender.Close a w
  | _, _ => (err, w)
  end.

(** [MakeAppendExtractor], then [ByteArray] on the extractor obtained. *)
Definition read_block `{!GzipLib} `{!JsonLib} (filename dataName : string) (w : World)
  : go_result (list byte * option error) * World :=
  let '((extractor, err), w) := MakeAppendExtractor filename w in
  match extractor, err with
  | Some x, None => BinAppendExtractor.ByteArray x dataName w
  | _, Some e => (Returns ([], Some e), w)
  | None, None => (Panics, w)
  end.

(** The compressed blocks of [items], back to back, and their sizes. *)
Definition body_of `{!GzipLib} (items : list (string * list byte)) : list byte :=
  concat ((λ it, gzip it.2) <$> items).

Definition sizes_of `{!GzipLib} (items : list (string * list byte)) : list nat :=
  (λ it, length (gzip it.2)) <$> items.

(** The index a run of appends builds, starting at file size [base] from
    the index [acc]: each entry is computed as [AppendStreamReader] does. *)
Fixpoint index_of `{!GzipLib} (base : nat) (items : list (string * list byte))
    (acc : gmap string appendedData) : gmap string appendedData :=
  match items with
  | [] => acc
  | (name, data) :: rest =>
      let next := (base + length (gzip data))%nat in
      let entry := mk_appendedData (Z.of_nat base) (int64 (Z.of_nat next - Z.of_nat base)) in
      index_of next rest (<[name := entry]> acc)
  end.

(** The index and the file a run of appends on a file holding [c0] leaves
    behind when no system call fails. *)
Definition index_after `{!GzipLib} (c0 : list byte) (items : list (string * list byte))
  : appendedMetadata :=
  mk_appendedMetadata METADATA_VERSION (index_of (length c0) items ∅).

Definition file_after `{!GzipLib} `{!JsonLib} (c0 : list byte)
    (items : list (string * list byte)) : list byte :=
  (c0 ++ body_of items) ++ json_Marshal (index_after c0 items)
    ++ PutUint64 (uint64 (Z.of_nat (length (c0 ++ body_of items)))).

(** Any sequence of calls on an appender, whatever each call returns. *)
Inductive appender_op : Type :=
  | OpAppendStreamReader (name : string) (source : Reader)
  | OpAppendFile (source : string)
  | OpClose.

Definition run_op `{!GzipLib} `{!JsonLib} (appender : BinAppender.t) (o : appender_op)
    (w : World) : BinAppender.t * World :=
  match o with
  | OpAppendStreamReader name source =>
      let '((appender, _), w) := BinAppender.AppendStreamReader appender name source w in
      (appender, w)
  | OpAppendFile source =>
      let '((appender, _), w) := BinAppender.AppendFile appender source w in
      (appender, w)
  | OpClose =>
      let '(_, w) := BinAppender.Close appender w in (appender, w)
  end.

Fixpoint run_ops `{!GzipLib} `{!JsonLib} (appender : BinAppender.t)
    (ops : list appender_op) (w : World) : BinAppender.t * World :=
  match ops with
  | [] => (appender, w)
  | o :: ops => let '(appender, w) := run_op appender o w in run_ops appender ops w
  end.

(** The name the specification gives the block of [appendFile(path)]: the
    final component of the path. *)
Fixpoint spec_base_name_from (path cur : string) : string :=
  match path with
  | EmptyString => cur
  | String c rest =>
      if Ascii.eqb c (Ascii.ascii_of_nat 47) (* the separator, a slash *)
      then spec_base_name_from rest EmptyString
      else spec_base_name_from rest (cur +:+ String c EmptyString)
  end.

Definition spec_base_name (path : string) : string :=
  spec_base_name_from path EmptyString.

(** One [ByteArray] call per name, in order, on one extractor; a panic
    ends the run. *)
Fixpoint ByteArrays `{!GzipLib} (x : BinAppendExtractor.t) (names : list string) (w : World)
  : list (go_result (list byte * option error)) * World :=
  match names with
  | [] => ([], w)
  | name :: rest =>
      match BinAppendExtractor.ByteArray x name w with
      | (Panics, w) => ([Panics], w)
      | (Returns r, w) =>
          let '(results, w) := ByteArrays x rest w in
          (Returns r :: results, w)
      end
  end.

(** One [Write] per buffer on a [writeCounter], in order, whatever each
    returns. *)
Fixpoint WriteAll (wc : writeCounter.t) (bufs : list (list byte)) (w : World)
  : writeCounter.t * World :=
  match bufs with
  | [] => (wc, w)
  | b :: rest => let '((wc, _), w) := writeCounter.Write wc b w in WriteAll wc rest w
  end.

(** The entry of [name] in [index] lies within [body] and the bytes it
    delimits are the gzip stream of [d]. *)
Definition block_at `{!GzipLib} (body : list byte) (index : gmap string appendedData)
    (name : string) (d : list byte) : Prop :=
  ∃ entry,
    index !! name = Some entry
    ∧ 0 ≤ StartFilePtr entry
    ∧ (Z.to_nat (StartFilePtr entry) + Z.to_nat (ZippedSize entry) ≤ length body)%nat
    ∧ take (Z.to_nat (ZippedSize entry)) (drop (Z.to_nat (StartFilePtr entry)) body) = gzip d.

(** ** Predicates on worlds *)

(** No failure is pending and the file at [p] holds [c]. *)
Definition quiet_file (w : World) (p : string) (c : list byte) : Prop :=
  faults w = [] ∧ files w !! p = Some c.

(** Moreover descriptor [n] is an open read-write handle on [p]. *)
Definition appender_ready (w : World) (n : nat) (p : string) (c : list byte) : Prop :=
  faults w = [] ∧ files w !! p = Some c ∧
  ∃ pos, handles w !! n = Some (mkOpenFile p pos true).

(** Every file of [w] is still there in [w'], possibly longer. *)
Definition extends (w w' : World) : Prop :=
  ∀ q, contents w q `prefix_of` contents w' q.

(** The handle [f], if open, stands at the end of its file. *)
Definition at_end (w : World) (f : file_ptr) : Prop :=
  match f with
  | nil_file => True
  | fd n => ∀ h, handles w !! n = Some h → of_pos h = length (contents w (of_path h))
  end.

(** The two worlds have the same handles, except perhaps descriptor [n]. *)
Definition same_handles_except (n : nat) (w w' : World) : Prop :=
  ∀ m, m ≠ n → handles w' !! m = handles w !! m.

(** ** Reference codecs

    A stored (uncompressed) gzip framing and a length-prefixed index
    encoding: small codecs that satisfy the laws of the two libraries, on
    which the container can be run. *)

Module RefCodec.

Definition magic : list byte := [Byte.x1f; Byte.x8b].

Definition store (d : list byte) : list byte := magic ++ d.

Definition header_ok (s : list byte) : bool :=
  match s with
  | Byte.x1f :: Byte.x8b :: _ => true
  | _ => false
  end.

Definition unstore (s : list byte) : option (list byte) :=
  match s with
  | Byte.x1f :: Byte.x8b :: d => Some d
  | _ => None
  end.

(** The header leaves with the first write, if there is one. *)
Definition flushed (d : list byte) : nat :=
  match d with [] => 0 | _ => 2 end.

(** Natural numbers in unary, closed by a zero byte. *)
Definition put_nat (n : nat) : list byte := replicate n Byte.x01 ++ [Byte.x00].

Fixpoint get_nat (s : list byte) : option (nat * list byte) :=
  match s with
  | Byte.x00 :: rest => Some (0%nat, rest)
  | Byte.x01 :: rest =>
      match get_nat rest with
      | Some (n, rest) => Some (S n, rest)
      | None => None
      end
  | _ => None
  end.

Definition put_string (s : string) : list byte :=
  let b := String.list_byte_of_string s in put_nat (length b) ++ b.

Definition get_string (s : list byte) : option (string * list byte) :=
  match get_nat s with
  | Some (n, rest) =>
      if (n <=? length rest)%nat
      then Some (String.string_of_list_byte (take n rest), drop n rest)
      else None
  | None => None
  end.

Definition put_int64 (z : Z) : list byte := PutUint64 (uint64 z).

Definition get_int64 (s : list byte) : option (Z * list byte) :=
  if (8 <=? length s)%nat then Some (int64 (Uint64 (take 8 s)), drop 8 s) else None.

Definition put_entry (e : string * appendedData) : list byte :=
  put_string e.1 ++ put_int64 (StartFilePtr e.2) ++ put_int64 (ZippedSize e.2).

Definition get_entry (s : list byte) : option ((string * appendedData) * list byte) :=
  match get_string s with
  | Some (name, s) =>
      match get_int64 s with
      | Some (start, s) =>
          match get_int64 s with
          | Some (size, s) => Some ((name, mk_appendedData start size), s)
          | None => None
          end
      | None => None
      end
  | None => None
  end.

Fixpoint get_entries (n : nat) (s : list byte)
  : option (list (string * appendedData) * list byte) :=
  match n with
  | O => Some ([], s)
  | S n =>
      match get_entry s with
      | Some (e, s) =>
          match get_entries n s with
          | Some (es, s) => Some (e :: es, s)
          | None => None
          end
      | None => None
      end
  end.

Definition marshal (m : appendedMetadata) : list byte :=
  let entries := map_to_list (Data m) in
  put_string (Version m) ++ put_nat (length entries) ++ concat (put_entry <$> entries).

Definition decode (s : list byte) : option appendedMetadata :=
  match get_string s with
  | Some (version, s) =>
      match get_nat s with
      | Some (n, s) =>
          match get_entries n s with
          | Some (entries, _) => Some (mk_appendedMetadata version (list_to_map entries))
          | None => None
          end
      | None => None
      end
  | None => None
  end.

Definition entry_ok (e : string * appendedData) : Prop :=
  int64_range (StartFilePtr e.2) ∧ int64_range (ZippedSize e.2).

End RefCodec.

(** ** Sample containers

    The inputs the statements are run on: a target file that already holds
    a few bytes (the client binary the blocks are packed onto) and a source
    file on disk. *)

Module Sample.

Definition target : string := "client.bin".
Definition asset : string := "assets/logo.png".

Definition binary : list byte := [Byte.x7f; Byte.x45; Byte.x4c; Byte.x46].
Definition logo : list byte := [Byte.x89; Byte.x50; Byte.x4e; Byte.x47].

Definition world : World :=
  mkWorld {[ target := binary; asset := logo ]} ∅ 3 [] [].

Definition a_bytes : list byte := [Byte.x01; Byte.x02; Byte.x03; Byte.x04; Byte.x05].

(** The end-to-end scenario of the specification: block [a] of five
    bytes, block [b] empty. *)
Definition blocks : list (string * list byte) := [("a", a_bytes); ("b", [])].

(** The appender and the world after [MakeAppender(target)] and
    [AppendFile(asset)]. *)
Definition packed `{!GzipLib} : BinAppender.t * World :=
  match MakeAppender target world with
  | ((Some a, _), w) =>
      let '((a, _), w) := BinAppender.AppendFile a asset w in (a, w)
  | ((None, _), w) =>
      (BinAppender.mk nil_file (mk_appendedMetadata METADATA_VERSION ∅), w)
  end.

(** A container without blocks whose index carries another version. *)
Definition other_version : appendedMetadata := mk_appendedMetadata "0.2" ∅.

Definition other_version_world : World :=
  mkWorld {[ target := RefCodec.marshal other_version ++ PutUint64 0 ]} ∅ 3 [] [].

(** An extractor whose index points block [a] at bytes that are not a gzip
    stream. *)
Definition broken : BinAppendExtractor.t :=
  BinAppendExtractor.mk target
    (mk_appendedMetadata METADATA_VERSION {[ "a" := mk_appendedData 0 4 ]}).

End Sample.

(** ** Further sample worlds *)

Module Scenario.

Definition stdout : string := "/dev/stdout".

(** The appender of descriptor 3 with an empty index. *)
Definition fresh : BinAppender.t :=
  BinAppender.mk (fd 3) (mk_appendedMetadata METADATA_VERSION ∅).

(** The target open for appending on descriptor 3, with the outcomes of
    the next system calls. *)
Definition appending (content : list byte) (fl : list fault) : World :=
  mkWorld {[ Sample.target := content; Sample.asset := Sample.logo ]}
    {[ 3%nat := mkOpenFile Sample.target (length content) true ]} 4 fl [].

(** A target that holds [content], nothing open. *)
Definition holding (content : list byte) : World :=
  mkWorld {[ Sample.target := content ]} ∅ 3 [] [].

(** A target that holds [content], the standard output open on an empty
    terminal. *)
Definition with_stdout (content : list byte) : World :=
  mkWorld {[ Sample.target := content; stdout := [] ]}
    {[ 1%nat := mkOpenFile stdout 0 true ]} 3 [] [].




End Scenario.

(** * Fixed-width integers and the trailer encoding *)

Lemma Z_of_byte_of_Z z : Z_of_byte (byte_of_Z z) = z mod 256.
Proof.
  unfold Z_of_byte, byte_of_Z.
  assert (Hr : 0 <= z mod 256 < 256) by (apply Z.mod_pos_bound; lia).
  destruct (Byte.of_N (Z.to_N (z mod 256))) as [b|] eqn:E.
  - apply Byte.to_of_N in E. rewrite E. lia.
  - apply Byte.of_N_None_iff in E. lia.
Qed.

Lemma testbit_mod256 z n :
  0 <= n → Z.testbit (z mod 256) n = (n <? 8) && Z.testbit z n.
Proof.
  intros Hn. change 256 with (2 ^ 8).
  destruct (Z.ltb_spec n 8).
  - by rewrite Z.mod_pow2_bits_low by lia.
  - by rewrite Z.mod_pow2_bits_high by lia.
Qed.

(** The eight bytes read back give the value modulo [2^64]. *)
Lemma Uint64_PutUint64 v : Uint64 (PutUint64 v) = v mod 2 ^ 64.
Proof.
  unfold PutUint64, Uint64. rewrite !Z_of_byte_of_Z.
  apply Z.bits_inj'. intros n Hn.
  rewrite !Z.lor_spec, !Z.shiftl_spec by lia.
  rewrite testbit_mod256 by lia.
  destruct (Z.ltb_spec n 64) as [H64|H64].
  2:{ rewrite Z.mod_pow2_bits_high by lia.
      rewrite !testbit_mod256 by lia.
      repeat match goal with
             | |- context [(?a <? 8)] => destruct (Z.ltb_spec a 8); try lia
             end. }
  rewrite Z.mod_pow2_bits_low by lia.
  destruct (Z.ltb_spec n 8).
  all: repeat match goal with
       | |- context [Z.testbit (_ mod 256) ?k] =>
           destruct (Z.ltb_spec k 0);
           [ rewrite (Z.testbit_neg_r _ k) by lia
           | rewrite (testbit_mod256 _ k) by lia; rewrite Z.shiftr_spec by lia ]
       end.
  all: repeat match goal with
       | |- context [(?a <? 8)] => destruct (Z.ltb_spec a 8); try lia
       end.
  all: simpl; rewrite ?orb_false_r, ?orb_false_l; try done.
  all: try (f_equal; lia).
Qed.

Lemma int64_small z : int64_range z → int64 z = z.
Proof.
  unfold int64_range, int64. intros H.
  rewrite Z.mod_small by lia. lia.
Qed.

Lemma int64_uint64 z : int64_range z → int64 (uint64 z) = z.
Proof.
  unfold int64_range, int64, uint64. intros H.
  rewrite Zplus_mod_idemp_l.
  rewrite Z.mod_small by lia. lia.
Qed.

Lemma int64_in_range z : int64_range (int64 z).
Proof.
  unfold int64_range, int64.
  pose proof (Z.mod_pos_bound (z + 2 ^ 63) (2 ^ 64) ltac:(lia)). lia.
Qed.

(** The trailer written by [Close] is read back by [MakeAppendExtractor]. *)
Lemma trailer_round_trip (ptr : Z) :
  int64_range ptr → int64 (Uint64 (PutUint64 (uint64 ptr))) = ptr.
Proof.
  intros H. rewrite Uint64_PutUint64. unfold uint64 at 1.
  rewrite Z.mod_mod by lia. by apply int64_uint64.
Qed.

(** * The file layer when no system call fails *)

Lemma write_at_end (b c : list byte) : write_at (length c) b c = c ++ b.
Proof.
  unfold write_at. rewrite firstn_all, Nat.sub_diag. simpl.
  rewrite drop_ge by lia. by rewrite app_nil_r.
Qed.

Section Quiet.
Variables (fs : gmap string (list byte)) (hs : gmap nat OpenFile).
Variables (nf : nat) (tr : list syscall).

Lemma os_OpenFile_quiet name wr c :
  fs !! name = Some c →
  os_OpenFile name wr (mkWorld fs hs nf [] tr) =
    ((fd nf, None),
     mkWorld fs (<[nf := mkOpenFile name 0 wr]> hs) (S nf) [] (tr ++ [SysOpen name])).
Proof. intros H. unfold os_OpenFile. simpl. by rewrite H. Qed.

Lemma File_Seek_End_quiet n p pos wr c :
  hs !! n = Some (mkOpenFile p pos wr) → fs !! p = Some c →
  File_Seek (fd n) 0 SeekEnd (mkWorld fs hs nf [] tr) =
    ((Z.of_nat (length c), None),
     mkWorld fs (<[n := mkOpenFile p (length c) wr]> hs) nf [] (tr ++ [SysSeek n])).
Proof.
  intros Hn Hp. unfold File_Seek. simpl. rewrite Hn. simpl.
  unfold contents. simpl. rewrite Hp. simpl. rewrite Z.add_0_r.
  destruct (Z.ltb_spec (Z.of_nat (length c)) 0); [lia|].
  unfold set_handles. simpl. by rewrite Nat2Z.id.
Qed.

Lemma File_Seek_quiet n p pos wr c (off : Z) (wh : whence) :
  hs !! n = Some (mkOpenFile p pos wr) → fs !! p = Some c →
  let target := (match wh with SeekStart => 0 | SeekEnd => Z.of_nat (length c) end) + off in
  0 ≤ target →
  File_Seek (fd n) off wh (mkWorld fs hs nf [] tr) =
    ((target, None),
     mkWorld fs (<[n := mkOpenFile p (Z.to_nat target) wr]> hs) nf [] (tr ++ [SysSeek n])).
Proof.
  intros Hn Hp target Ht. unfold File_Seek. simpl. rewrite Hn. simpl.
  unfold contents. simpl. rewrite Hp. simpl. fold target.
  destruct (Z.ltb_spec target 0); [lia|]. done.
Qed.

Lemma File_Write_quiet n p c b :
  hs !! n = Some (mkOpenFile p (length c) true) → fs !! p = Some c →
  File_Write (fd n) b (mkWorld fs hs nf [] tr) =
    ((length b, None),
     mkWorld (<[p := c ++ b]> fs) (<[n := mkOpenFile p (length (c ++ b)) true]> hs)
             nf [] (tr ++ [SysWrite n])).
Proof.
  intros Hn Hp. unfold File_Write. simpl. rewrite Hn. simpl.
  unfold contents. simpl. rewrite Hp. simpl.
  by rewrite write_at_end, length_app.
Qed.

Lemma File_Read_quiet n p pos wr c size :
  hs !! n = Some (mkOpenFile p pos wr) → fs !! p = Some c →
  take size (drop pos c) ≠ [] →
  File_Read (fd n) size (mkWorld fs hs nf [] tr) =
    ((take size (drop pos c), None),
     mkWorld fs (<[n := mkOpenFile p (pos + length (take size (drop pos c))) wr]> hs)
             nf [] (tr ++ [SysRead n])).
Proof.
  intros Hn Hp Hne. unfold File_Read. simpl. rewrite Hn. simpl.
  unfold contents. simpl. rewrite Hp. simpl.
  destruct (take size (drop pos c)) eqn:E; [done|]. done.
Qed.

Lemma File_ReadToEnd_quiet n p pos wr c :
  hs !! n = Some (mkOpenFile p pos wr) → fs !! p = Some c →
  File_ReadToEnd (fd n) (mkWorld fs hs nf [] tr) =
    ((drop pos c, None),
     mkWorld fs (<[n := mkOpenFile p (pos + length (drop pos c)) wr]> hs)
             nf [] (tr ++ [SysRead n])).
Proof.
  intros Hn Hp. unfold File_ReadToEnd. simpl. rewrite Hn. simpl.
  unfold contents. simpl. by rewrite Hp.
Qed.

Lemma File_Close_quiet n h :
  hs !! n = Some h →
  File_Close (fd n) (mkWorld fs hs nf [] tr) =
    (None, mkWorld fs (delete n hs) nf [] (tr ++ [SysClose n])).
Proof. intros Hn. unfold File_Close. simpl. by rewrite Hn. Qed.

End Quiet.

(** One call in a world without pending failures: rewrite with its
    equation, find the handle and the file, and move on to what follows. *)
Ltac quiet_step lem :=
  erewrite lem by (try apply lookup_insert_eq; eauto; try lia);
  cbv beta iota zeta.

(** * The appender when no system call fails *)

Section Appender.
Context `{!GzipLib} `{!JsonLib}.
Import BinAppender.

(** One append, for any source whose draining succeeds and leaves the
    appender's handle alone. *)
Lemma AppendStreamReader_drained fs hs nf tr n p pos c md name source d hs' tr' :
  hs !! n = Some (mkOpenFile p pos true) →
  fs !! p = Some c →
  Reader_drain source
    (mkWorld fs (<[n := mkOpenFile p (length c) true]> hs) nf [] (tr ++ [SysSeek n]))
    = ((d, None), mkWorld fs hs' nf [] tr') →
  hs' !! n = Some (mkOpenFile p (length c) true) →
  ∃ tr'',
    AppendStreamReader (mk (fd n) md) name source (mkWorld fs hs nf [] tr) =
      ((set_Data (mk (fd n) md) name
          (mk_appendedData (Z.of_nat (length c))
                           (int64 (Z.of_nat (length (c ++ gzip d)) - Z.of_nat (length c)))),
        None),
       mkWorld (<[p := c ++ gzip d]> fs)
               (<[n := mkOpenFile p (length (c ++ gzip d)) true]> hs') nf [] tr'').
Proof.
  intros Hn Hp Hdrain Hn'.
  unfold AppendStreamReader. simpl fileHandle.
  quiet_step File_Seek_End_quiet.
  unfold io_Copy, gzWriter_Close. rewrite Hdrain. cbv beta iota zeta.
  assert (Hsplit : gzip d = take (gzip_flushed d) (gzip d) ++ drop (gzip_flushed d) (gzip d))
    by (symmetry; apply take_drop).
  destruct (take (gzip_flushed d) (gzip d)) as [|x out] eqn:E.
  - simpl in Hsplit. rewrite <- Hsplit.
    quiet_step File_Write_quiet.
    quiet_step File_Seek_End_quiet.
    eexists. by rewrite !insert_insert_eq.
  - quiet_step File_Write_quiet.
    quiet_step File_Write_quiet.
    quiet_step File_Seek_End_quiet.
    rewrite <- app_assoc, <- Hsplit.
    eexists. by rewrite !insert_insert_eq.
Qed.

Lemma AppendStreamReader_quiet w n p c md name d :
  appender_ready w n p c →
  ∃ w',
    AppendStreamReader (mk (fd n) md) name (BytesReader d None) w =
      ((set_Data (mk (fd n) md) name
          (mk_appendedData (Z.of_nat (length c))
                           (int64 (Z.of_nat (length (c ++ gzip d)) - Z.of_nat (length c)))),
        None), w')
    ∧ appender_ready w' n p (c ++ gzip d)
    ∧ files w' = <[p := c ++ gzip d]> (files w)
    ∧ next_fd w' = next_fd w.
Proof.
  destruct w as [fs hs nf fl tr]. intros (Hf & Hp & pos & Hn). simpl in *. subst fl.
  edestruct (AppendStreamReader_drained fs hs nf tr n p pos c md name (BytesReader d None))
    as [tr'' ->]; [done | done | reflexivity | apply lookup_insert_eq |].
  eexists. split; [reflexivity|].
  split; [|done]. split; [done|]. simpl. split; [apply lookup_insert_eq|].
  eexists. apply lookup_insert_eq.
Qed.

Lemma AppendAll_quiet items : ∀ w n p c v acc,
  appender_ready w n p c →
  ∃ w',
    AppendAll (mk (fd n) (mk_appendedMetadata v acc)) items w =
      ((mk (fd n) (mk_appendedMetadata v (index_of (length c) items acc)), None), w')
    ∧ appender_ready w' n p (c ++ body_of items)
    ∧ files w' = <[p := c ++ body_of items]> (files w)
    ∧ next_fd w' = next_fd w.
Proof.
  induction items as [|[name d] items IH]; intros w n p c v acc Hr.
  - exists w. simpl. unfold body_of. simpl. rewrite app_nil_r.
    split; [done|]. split; [done|]. split; [|done].
    symmetry. apply insert_id, Hr.
  - destruct (AppendStreamReader_quiet w n p c (mk_appendedMetadata v acc) name d Hr)
      as (w1 & E1 & Hr1 & Hf1 & Hn1).
    simpl. rewrite E1. unfold set_Data. simpl.
    edestruct (IH w1 n p (c ++ gzip d) v) as (w2 & E2 & Hr2 & Hf2 & Hn2); [exact Hr1|].
    rewrite length_app in *. rewrite E2.
    exists w2. unfold body_of in *. simpl. rewrite app_assoc.
    split; [done|]. split; [done|]. split; [|congruence].
    by rewrite Hf2, Hf1, insert_insert_eq.
Qed.

Lemma MakeAppender_quiet w p c :
  quiet_file w p c →
  ∃ w',
    MakeAppender p w =
      ((Some (mk (fd (next_fd w)) (mk_appendedMetadata METADATA_VERSION ∅)), None), w')
    ∧ appender_ready w' (next_fd w) p c
    ∧ files w' = files w.
Proof.
  destruct w as [fs hs nf fl tr]. intros [Hf Hp]. simpl in *. subst fl.
  unfold MakeAppender. quiet_step os_OpenFile_quiet.
  eexists. split; [reflexivity|]. repeat split; simpl; try done.
  eexists. apply lookup_insert_eq.
Qed.

Lemma Close_quiet w n p c md :
  appender_ready w n p c →
  ∃ w',
    Close (mk (fd n) md) w = (None, w')
    ∧ quiet_file w' p (c ++ json_Marshal md ++ PutUint64 (uint64 (Z.of_nat (length c))))
    ∧ files w' =
        <[p := c ++ json_Marshal md ++ PutUint64 (uint64 (Z.of_nat (length c)))]> (files w)
    ∧ handles w' = delete n (handles w).
Proof.
  destruct w as [fs hs nf fl tr]. intros (Hf & Hp & pos & Hn). simpl in *. subst fl.
  unfold Close. simpl fileHandle. simpl metadata.
  quiet_step File_Seek_End_quiet.
  quiet_step File_Write_quiet.
  quiet_step File_Write_quiet.
  erewrite File_Close_quiet by apply lookup_insert_eq.
  eexists. split; [reflexivity|]. rewrite !insert_insert_eq, <- !app_assoc.
  repeat split; simpl; try apply lookup_insert_eq.
  by rewrite !delete_insert_eq.
Qed.

(** [AppendFile] of a file not yet in the index: the block goes under the
    path as given and the source handle is closed again. *)
Lemma AppendFile_quiet w n p c md source d :
  appender_ready w n p c →
  files w !! source = Some d →
  source ≠ p →
  (n < next_fd w)%nat →
  Data md !! source = None →
  ∃ w',
    AppendFile (mk (fd n) md) source w =
      ((set_Data (mk (fd n) md) source
          (mk_appendedData (Z.of_nat (length c))
                           (int64 (Z.of_nat (length (c ++ gzip d)) - Z.of_nat (length c)))),
        None), w')
    ∧ appender_ready w' n p (c ++ gzip d)
    ∧ files w' = <[p := c ++ gzip d]> (files w)
    ∧ handles w' !! next_fd w = None.
Proof.
  destruct w as [fs hs nf fl tr]. intros (Hf & Hp & pos & Hn) Hsrc Hne Hlt Hfresh.
  simpl in *. subst fl.
  unfold AppendFile, os_Open. simpl metadata.
  quiet_step os_OpenFile_quiet. rewrite Hfresh.
  edestruct (AppendStreamReader_drained fs (<[nf := mkOpenFile source 0 false]> hs)
               (S nf) (tr ++ [SysOpen source]) n p pos c md source (FileReader (fd nf)) d)
    as [tr'' ->].
  - rewrite lookup_insert_ne by lia. done.
  - done.
  - unfold Reader_drain.
    rewrite (File_ReadToEnd_quiet _ _ _ _ nf source 0 false d); [reflexivity| |done].
    rewrite lookup_insert_ne by lia. apply lookup_insert_eq.
  - rewrite lookup_insert_ne by lia. apply lookup_insert_eq.
  - cbv beta iota zeta.
    erewrite File_Close_quiet.
    2:{ rewrite lookup_insert_ne by lia. apply lookup_insert_eq. }
    eexists. split; [reflexivity|]. simpl.
    split; [|split; [done|apply lookup_delete_eq]].
    split; [done|]. split; [apply lookup_insert_eq|].
    eexists. simpl. rewrite lookup_delete_ne by lia. apply lookup_insert_eq.
Qed.

End Appender.

(** * The extractor when no system call fails *)

Section Extractor.
Context `{!GzipLib} `{!JsonLib}.

(** [MakeAppendExtractor] on a file whose last eight bytes point at a
    decodable index: the version decides, and the handle is closed. *)
Lemma MakeAppendExtractor_decoded w p content m :
  let ptr := int64 (Uint64 (drop (length content - 8) content)) in
  quiet_file w p content →
  (8 ≤ length content)%nat →
  0 ≤ ptr →
  json_Decode (drop (Z.to_nat ptr) content) = Some m →
  ∃ w',
    MakeAppendExtractor p w =
      (if String.eqb (Version m) METADATA_VERSION
       then (Some (BinAppendExtractor.mk p m), None)
       else (None, Some (Errorf version_mismatch_msg [METADATA_VERSION; Version m; p])),
       w')
    ∧ faults w' = [] ∧ files w' = files w
    ∧ handles w' = delete (next_fd w) (handles w).
Proof.
  destruct w as [fs hs nf fl tr]. intros ptr [Hf Hp] Hlen Hptr Hdec. simpl in *. subst fl.
  set (T := drop (length content - 8) content) in *.
  assert (HT : length T = 8%nat) by (unfold T; rewrite length_drop; lia).
  unfold MakeAppendExtractor, os_Open.
  quiet_step os_OpenFile_quiet.
  erewrite (File_Seek_quiet _ _ _ _ _ _ _ _ _ (-8) SeekEnd)
    by (try apply lookup_insert_eq; eauto; lia).
  cbv beta iota zeta.
  replace (Z.to_nat (Z.of_nat (length content) + -8)) with (length content - 8)%nat by lia.
  assert (Htake : take 8 (drop (length content - 8) content) = T).
  { fold T. rewrite take_ge by lia. done. }
  erewrite File_Read_quiet;
    [| apply lookup_insert_eq | eauto | rewrite Htake; by intros E; rewrite E in HT].
  rewrite Htake. cbv beta iota zeta. rewrite HT. simpl negb. cbv iota.
  fold ptr.
  erewrite (File_Seek_quiet _ _ _ _ _ _ _ _ _ ptr SeekStart)
    by (try apply lookup_insert_eq; eauto; lia).
  cbv beta iota zeta. rewrite !Z.add_0_l.
  quiet_step File_ReadToEnd_quiet. rewrite Hdec. cbv iota.
  destruct (String.eqb (Version m) METADATA_VERSION); simpl negb; cbv iota.
  - quiet_step File_Close_quiet.
    eexists. split; [reflexivity|]. simpl.
    by rewrite !delete_insert_eq.
  - quiet_step File_Close_quiet.
    eexists. split; [reflexivity|]. simpl.
    by rewrite !delete_insert_eq.
Qed.

(** On a file that ends with the index [m] and the trailer [Close] writes,
    the extractor captures [m]. *)
Lemma MakeAppendExtractor_quiet w p body m :
  let ptr := Z.of_nat (length body) in
  quiet_file w p (body ++ json_Marshal m ++ PutUint64 (uint64 ptr)) →
  ptr < 2 ^ 63 →
  json_faithful json_text_ok m →
  Version m = METADATA_VERSION →
  ∃ w',
    MakeAppendExtractor p w = ((Some (BinAppendExtractor.mk p m), None), w')
    ∧ faults w' = [] ∧ files w' = files w.
Proof.
  intros ptr Hq Hb Hm Hv.
  set (J := json_Marshal m) in *. set (T := PutUint64 (uint64 ptr)) in *.
  assert (HT : length T = 8%nat) by reflexivity.
  assert (Hdrop : drop (length (body ++ J ++ T) - 8) (body ++ J ++ T) = T).
  { rewrite app_assoc. apply drop_app_length'. rewrite !length_app. lia. }
  assert (Hptr : int64 (Uint64 T) = ptr).
  { apply trailer_round_trip. unfold int64_range, ptr. lia. }
  destruct (MakeAppendExtractor_decoded w p (body ++ J ++ T) m) as (w' & E & Hf & Hfs & _).
  - done.
  - rewrite !length_app. lia.
  - rewrite Hdrop, Hptr. unfold ptr. lia.
  - rewrite Hdrop, Hptr. unfold ptr. rewrite Nat2Z.id, drop_app_length.
    by apply json_Decode_Marshal.
  - exists w'. rewrite E, Hv. done.
Qed.

Lemma ByteArray_quiet w x name entry content d :
  quiet_file w (BinAppendExtractor.filename x) content →
  Data (BinAppendExtractor.metadata x) !! name = Some entry →
  0 ≤ StartFilePtr entry →
  take (Z.to_nat (ZippedSize entry)) (drop (Z.to_nat (StartFilePtr entry)) content) = gzip d →
  ∃ w',
    BinAppendExtractor.ByteArray x name w = (Returns (d, None), w')
    ∧ faults w' = [] ∧ files w' = files w.
Proof.
  destruct w as [fs hs nf fl tr]. destruct x as [p md].
  intros [Hf Hp] He Hs Hblk. simpl in *. subst fl.
  unfold BinAppendExtractor.ByteArray, BinAppendExtractor.GetReader.
  simpl BinAppendExtractor.metadata. simpl BinAppendExtractor.filename.
  rewrite He. unfold os_Open.
  quiet_step os_OpenFile_quiet.
  erewrite (File_Seek_quiet _ _ _ _ _ _ _ _ _ _ SeekStart)
    by (try apply lookup_insert_eq; eauto; lia).
  cbv beta iota zeta. rewrite !Z.add_0_l. unfold gzip_NewReader.
  erewrite File_Read_quiet;
    [| apply lookup_insert_eq | eauto | rewrite Hblk; apply gzip_nonempty].
  rewrite Hblk. cbv beta iota zeta. rewrite gzip_header.
  unfold BinAppendReader.ReadAll. cbn [BinAppendReader.gzReader gz_stream].
  rewrite gunzip_gzip. cbv beta iota.
  unfold BinAppendExtractor.deferred_Close, BinAppendReader.Close.
  cbn [BinAppendReader.fileHandle].
  quiet_step File_Close_quiet.
  unfold File_Close. cbn [handles]. rewrite lookup_delete_eq.
  eexists. split; [reflexivity|]. done.
Qed.

End Extractor.

(** * The index a run of appends builds *)

Lemma sum_list_take_le i (l : list nat) : (sum_list (take i l) ≤ sum_list l)%nat.
Proof.
  revert i. induction l as [|x l IH]; intros [|i]; simpl; try lia.
  specialize (IH i). lia.
Qed.

Section Index.
Context `{!GzipLib}.

Lemma body_of_app (l1 l2 : list (string * list byte)) :
  body_of (l1 ++ l2) = body_of l1 ++ body_of l2.
Proof. unfold body_of. by rewrite fmap_app, concat_app. Qed.

Lemma body_of_cons name d (l : list (string * list byte)) :
  body_of ((name, d) :: l) = gzip d ++ body_of l.
Proof. reflexivity. Qed.

Lemma length_body_of (items : list (string * list byte)) :
  length (body_of items) = sum_list (sizes_of items).
Proof.
  induction items as [|[name d] items IH]; [done|].
  rewrite body_of_cons, length_app, IH. done.
Qed.

Lemma sizes_of_take i (items : list (string * list byte)) :
  take i (sizes_of items) = sizes_of (take i items).
Proof. unfold sizes_of. by rewrite fmap_take. Qed.

Lemma index_of_notin (items : list (string * list byte)) : ∀ base acc name,
  name ∉ items.*1 → index_of base items acc !! name = acc !! name.
Proof.
  induction items as [|[n d] items IH]; intros base acc name Hn; [done|].
  simpl in *. apply not_elem_of_cons in Hn as [Hne Hn].
  rewrite IH by done. by rewrite lookup_insert_ne.
Qed.

Lemma index_of_lookup (items : list (string * list byte)) : ∀ i base acc name d,
  items !! i = Some (name, d) →
  name ∉ (drop (S i) items).*1 →
  index_of base items acc !! name =
    Some (mk_appendedData (Z.of_nat (base + sum_list (take i (sizes_of items))))
                          (int64 (Z.of_nat (length (gzip d))))).
Proof.
  induction items as [|[n0 d0] items IH]; intros i base acc name d Hi Hn; [done|].
  destruct i as [|i]; simpl in *.
  - injection Hi as -> ->. rewrite drop_0 in Hn.
    rewrite index_of_notin by done. rewrite lookup_insert_eq.
    do 2 f_equal; [f_equal; lia | f_equal; lia].
  - rewrite (IH i _ _ name d) by done. do 3 f_equal. lia.
Qed.

Lemma block_slice (items : list (string * list byte)) i name d (c0 rest : list byte) :
  items !! i = Some (name, d) →
  take (length (gzip d))
       (drop (length c0 + sum_list (take i (sizes_of items)))
             (c0 ++ body_of items ++ rest)) = gzip d.
Proof.
  intros Hi. rewrite sizes_of_take, <- length_body_of.
  rewrite <- (take_drop_middle items i (name, d)) at 2 by done.
  rewrite body_of_app, body_of_cons, <- !app_assoc.
  rewrite app_assoc, <- length_app, drop_app_length.
  by rewrite take_app_length.
Qed.

Lemma index_of_entries (P : string → appendedData → Prop)
    (items : list (string * list byte)) : ∀ base acc,
  (∀ name e, acc !! name = Some e → P name e) →
  (∀ i name d, items !! i = Some (name, d) →
     P name (mk_appendedData (Z.of_nat (base + sum_list (take i (sizes_of items))))
                             (int64 (Z.of_nat (length (gzip d)))))) →
  ∀ name e, index_of base items acc !! name = Some e → P name e.
Proof.
  induction items as [|[n0 d0] items IH]; intros base acc Hacc Hitems name e; [apply Hacc|].
  simpl. apply IH.
  - intros n e'. destruct (decide (n0 = n)) as [->|Hne].
    + rewrite lookup_insert_eq. intros [= <-].
      specialize (Hitems 0%nat n d0 eq_refl). simpl in Hitems.
      replace (Z.of_nat (base + length (gzip d0)) - Z.of_nat base)
        with (Z.of_nat (length (gzip d0))) by lia.
      by rewrite Nat.add_0_r in Hitems.
    + rewrite lookup_insert_ne by done. apply Hacc.
  - intros i n d Hi. specialize (Hitems (S i) n d Hi). simpl in Hitems.
    by rewrite Nat.add_assoc in Hitems.
Qed.

End Index.

(** * Whole runs: writing a container and reading a block back *)

Section Container.
Context `{!GzipLib} `{!JsonLib}.

Lemma fill_container_quiet w p c0 items :
  quiet_file w p c0 →
  ∃ w',
    fill_container p items w =
      ((Some (BinAppender.mk (fd (next_fd w)) (index_after c0 items)), None), w')
    ∧ appender_ready w' (next_fd w) p (c0 ++ body_of items)
    ∧ files w' = <[p := c0 ++ body_of items]> (files w).
Proof.
  intros Hq. unfold fill_container.
  destruct (MakeAppender_quiet w p c0 Hq) as (w1 & -> & Hr1 & Hf1).
  destruct (AppendAll_quiet items w1 (next_fd w) p c0 METADATA_VERSION ∅ Hr1)
    as (w2 & -> & Hr2 & Hf2 & _).
  exists w2. split; [done|]. split; [done|]. by rewrite Hf2, Hf1.
Qed.

Lemma write_container_quiet w p c0 items :
  quiet_file w p c0 →
  ∃ w',
    write_container p items w = (None, w')
    ∧ quiet_file w' p (file_after c0 items)
    ∧ files w' = <[p := file_after c0 items]> (files w).
Proof.
  intros Hq. unfold write_container.
  destruct (fill_container_quiet w p c0 items Hq) as (w1 & -> & Hr1 & Hf1).
  destruct (Close_quiet w1 (next_fd w) p _ (index_after c0 items) Hr1)
    as (w2 & -> & Hq2 & Hf2 & _).
  exists w2. split; [done|]. split; [done|].
  by rewrite Hf2, Hf1, insert_insert_eq.
Qed.

Lemma index_after_faithful c0 (items : list (string * list byte)) :
  Forall json_text_ok items.*1 →
  Z.of_nat (length (c0 ++ body_of items)) < 2 ^ 63 →
  json_faithful json_text_ok (index_after c0 items).
Proof.
  intros Hnames Hsize. split; [apply json_version_ok|]. simpl.
  apply index_of_entries; [intros name e; by rewrite lookup_empty|].
  intros i name d Hi. simpl.
  split; [|split].
  - rewrite Forall_lookup in Hnames. apply (Hnames i).
    by rewrite list_lookup_fmap, Hi.
  - rewrite length_app, length_body_of in Hsize.
    pose proof (sum_list_take_le i (sizes_of items)) as Hle.
    unfold int64_range. lia.
  - apply int64_in_range.
Qed.

Lemma read_block_quiet w p c0 (items : list (string * list byte)) i name d :
  quiet_file w p (file_after c0 items) →
  Forall json_text_ok items.*1 →
  Z.of_nat (length (c0 ++ body_of items)) < 2 ^ 63 →
  items !! i = Some (name, d) →
  name ∉ (drop (S i) items).*1 →
  ∃ w', read_block p name w = (Returns (d, None), w') ∧ faults w' = [] ∧ files w' = files w.
Proof.
  intros Hq Hnames Hsize Hi Hlast. unfold read_block.
  destruct (MakeAppendExtractor_quiet w p (c0 ++ body_of items) (index_after c0 items))
    as (w1 & -> & Hf1 & Hfs1); try done.
  { by apply index_after_faithful. }
  pose proof (index_of_lookup items i (length c0) ∅ name d Hi Hlast) as Hidx.
  assert (Hlen : (length c0 + sum_list (take i (sizes_of items)) + length (gzip d)
                  ≤ length (c0 ++ body_of items))%nat).
  { rewrite length_app, length_body_of.
    rewrite <- (take_drop_middle items i (name, d)) at 2 by done.
    unfold sizes_of at 2. rewrite fmap_app, sum_list_with_app. fold (sizes_of (take i items)).
    rewrite sizes_of_take. simpl. lia. }
  edestruct (ByteArray_quiet w1 (BinAppendExtractor.mk p (index_after c0 items)) name)
    with (content := file_after c0 items) (d := d) as (w2 & -> & Hf2 & Hfs2).
  - destruct Hq as [_ Hp]. split; [done|]. simpl. by rewrite Hfs1.
  - exact Hidx.
  - simpl. lia.
  - simpl. rewrite int64_small by (unfold int64_range; lia).
    rewrite !Nat2Z.id. unfold file_after. rewrite <- app_assoc.
    by apply (block_slice items i name d).
  - exists w2. split; [done|]. split; [done|]. congruence.
Qed.

End Container.

(** * Frame: what the calls leave in place *)

Lemma extends_refl w : extends w w.
Proof. intros q. reflexivity. Qed.

Lemma extends_trans w1 w2 w3 : extends w1 w2 → extends w2 w3 → extends w1 w3.
Proof. intros H12 H23 q. etrans; [apply H12 | apply H23]. Qed.

Lemma extends_same_files w w' : files w' = files w → extends w w'.
Proof. intros H q. unfold contents. by rewrite H. Qed.

Lemma os_OpenFile_files name wr w : files (os_OpenFile name wr w).2 = files w.
Proof.
  unfold os_OpenFile. simpl. destruct (faults w) as [|[|k] fl]; simpl; try done.
  all: by destruct (files w !! name).
Qed.

Lemma File_Seek_files f off wh w : files (File_Seek f off wh w).2 = files w.
Proof.
  unfold File_Seek. destruct f as [|n]; [done|].
  destruct (handles w !! n) as [h|]; [|done]. simpl.
  destruct (faults w) as [|[|k] fl]; simpl; try done.
  all: by destruct (_ <? 0).
Qed.

Lemma File_Close_files f w : files (File_Close f w).2 = files w.
Proof.
  unfold File_Close. destruct f as [|n]; [done|].
  by destruct (handles w !! n).
Qed.

Lemma File_ReadToEnd_files f w : files (File_ReadToEnd f w).2 = files w.
Proof.
  unfold File_ReadToEnd. destruct f as [|n]; [done|].
  by destruct (handles w !! n).
Qed.

Lemma Reader_drain_files r w : files (Reader_drain r w).2 = files w.
Proof. destruct r; [done|]. apply File_ReadToEnd_files. Qed.

(** A successful [Seek(0, io.SeekEnd)] leaves the handle at the end. *)
Lemma File_Seek_End_at_end f w r w' :
  File_Seek f 0 SeekEnd w = ((r, None), w') → at_end w' f.
Proof.
  unfold File_Seek. destruct f as [|n]; [done|].
  destruct (handles w !! n) as [h|] eqn:Hn; [|done]. simpl.
  destruct (faults w) as [|[|k] fl]; simpl; try done.
  all: rewrite Z.add_0_r; destruct (_ <? 0) eqn:E; try done.
  all: intros [= <- <-]; intros h'; simpl; rewrite lookup_insert_eq; intros [= <-]; simpl.
  all: unfold contents; simpl; lia.
Qed.

(** Reading moves no other handle, and a handle at the end of its file
    reads nothing. *)
Lemma File_ReadToEnd_at_end g f w :
  at_end w f → at_end (File_ReadToEnd g w).2 f.
Proof.
  unfold File_ReadToEnd. destruct g as [|m]; [done|].
  destruct (handles w !! m) as [hm|] eqn:Hm; [|done]. simpl.
  destruct f as [|n]; [done|]. simpl. intros Hend h.
  destruct (decide (m = n)) as [->|Hne].
  - rewrite lookup_insert_eq. intros [= <-]. simpl.
    specialize (Hend hm Hm). unfold contents in *. simpl.
    rewrite drop_ge by lia.
    destruct (faults w) as [|[|k] fl]; simpl; try lia.
    rewrite take_nil. simpl. lia.
  - rewrite lookup_insert_ne by done. apply Hend.
Qed.

Lemma Reader_drain_at_end r f w : at_end w f → at_end (Reader_drain r w).2 f.
Proof. destruct r; [done|]. apply File_ReadToEnd_at_end. Qed.

(** Writing through a handle that stands at the end of its file only adds
    bytes after the end, whatever the outcome of the call. *)
Lemma File_Write_at_end f b w :
  at_end w f →
  extends w (File_Write f b w).2 ∧ at_end (File_Write f b w).2 f.
Proof.
  unfold File_Write. destruct f as [|n]; [split; [apply extends_refl|done]|].
  destruct (handles w !! n) as [h|] eqn:Hn; [|split; [apply extends_refl|done]].
  intros Hend. pose proof (Hend h Hn) as Hpos.
  simpl. destruct (of_writable h).
  2:{ split; [by apply extends_same_files|]. simpl. intros h'. simpl. apply Hend. }
  unfold contents in *. simpl. rewrite Hpos, write_at_end.
  split.
  - intros q. unfold contents. simpl.
    destruct (decide (of_path h = q)) as [<-|Hne].
    + rewrite lookup_insert_eq. simpl. by apply prefix_app_r.
    + by rewrite lookup_insert_ne.
  - simpl. intros h'. rewrite lookup_insert_eq. intros [= <-]. simpl.
    rewrite lookup_insert_eq. simpl. by rewrite length_app.
Qed.

Section Frame.
Context `{!GzipLib} `{!JsonLib}.
Import BinAppender.

Lemma io_Copy_extends f source w :
  at_end w f →
  extends w (io_Copy f source w).2 ∧ at_end (io_Copy f source w).2 f.
Proof.
  intros Hend. unfold io_Copy.
  pose proof (Reader_drain_files source w) as Hfs.
  pose proof (Reader_drain_at_end source f w Hend) as Hend'.
  destruct (Reader_drain source w) as [[d rerr] w1]. simpl in Hfs, Hend'.
  destruct (take (gzip_flushed d) (gzip d)) as [|x out].
  - split; [by apply extends_same_files|done].
  - destruct (File_Write_at_end f (x :: out) w1 Hend') as [Hext Hend''].
    destruct (File_Write f (x :: out) w1) as [[k werr] w2]. simpl in *.
    split; [|done]. eapply extends_trans; [by apply extends_same_files|done].
Qed.

Lemma AppendStreamReader_extends appender name source w :
  extends w (AppendStreamReader appender name source w).2.
Proof.
  unfold AppendStreamReader.
  pose proof (File_Seek_files (fileHandle appender) 0 SeekEnd w) as Hfs1.
  destruct (File_Seek (fileHandle appender) 0 SeekEnd w) as [[startPtr [e|]] w1] eqn:E1;
    simpl in Hfs1; [by apply extends_same_files|].
  apply File_Seek_End_at_end in E1.
  destruct (io_Copy_extends (fileHandle appender) source w1 E1) as [Hext2 Hend2].
  destruct (io_Copy (fileHandle appender) source w1) as [[d [e|]] w2]; simpl in *.
  { eapply extends_trans; [by apply extends_same_files|done]. }
  unfold gzWriter_Close.
  destruct (File_Write_at_end (fileHandle appender) (drop (gzip_flushed d) (gzip d)) w2 Hend2)
    as [Hext3 _].
  destruct (File_Write (fileHandle appender) (drop (gzip_flushed d) (gzip d)) w2)
    as [[k werr] w3]; simpl in *.
  pose proof (File_Seek_files (fileHandle appender) 0 SeekEnd w3) as Hfs4.
  assert (Hw3 : extends w w3).
  { eapply extends_trans; [by apply extends_same_files|].
    eapply extends_trans; done. }
  destruct (File_Seek (fileHandle appender) 0 SeekEnd w3) as [[endPtr [e|]] w4];
    simpl in *; (eapply extends_trans; [exact Hw3 | by apply extends_same_files]).
Qed.

Lemma AppendFile_extends appender source w :
  extends w (AppendFile appender source w).2.
Proof.
  unfold AppendFile, os_Open.
  pose proof (os_OpenFile_files source false w) as Hfs1.
  destruct (os_OpenFile source false w) as [[sourceHandle [e|]] w1]; simpl in Hfs1;
    [by apply extends_same_files|].
  destruct (Data (metadata appender) !! source); [by apply extends_same_files|].
  pose proof (AppendStreamReader_extends appender source (FileReader sourceHandle) w1) as Hext2.
  destruct (AppendStreamReader appender source (FileReader sourceHandle) w1)
    as [[appender' [e|]] w2]; simpl in *.
  { eapply extends_trans; [by apply extends_same_files|done]. }
  pose proof (File_Close_files sourceHandle w2) as Hfs3.
  destruct (File_Close sourceHandle w2) as [cerr w3]; simpl in *.
  eapply extends_trans; [by apply extends_same_files|].
  eapply extends_trans; [done|by apply extends_same_files].
Qed.

Lemma Close_extends appender w : extends w (Close appender w).2.
Proof.
  unfold Close.
  pose proof (File_Seek_files (fileHandle appender) 0 SeekEnd w) as Hfs1.
  destruct (File_Seek (fileHandle appender) 0 SeekEnd w) as [[jsonPtr [e|]] w1] eqn:E1;
    simpl in Hfs1; [by apply extends_same_files|].
  apply File_Seek_End_at_end in E1.
  destruct (File_Write_at_end (fileHandle appender) (json_Marshal (metadata appender)) w1 E1)
    as [Hext2 Hend2].
  destruct (File_Write (fileHandle appender) (json_Marshal (metadata appender)) w1)
    as [[k1 werr1] w2]; simpl in *.
  assert (Hw2 : extends w w2).
  { eapply extends_trans; [by apply extends_same_files|done]. }
  destruct werr1 as [e|]; [done|].
  destruct (File_Write_at_end (fileHandle appender) (PutUint64 (uint64 jsonPtr)) w2 Hend2)
    as [Hext3 _].
  destruct (File_Write (fileHandle appender) (PutUint64 (uint64 jsonPtr)) w2)
    as [[k2 werr2] w3]; simpl in *.
  assert (Hw3 : extends w w3) by (eapply extends_trans; done).
  destruct werr2 as [e|]; [done|].
  eapply extends_trans; [exact Hw3|]. apply extends_same_files, File_Close_files.
Qed.

Lemma run_op_extends appender o w : extends w (run_op appender o w).2.
Proof.
  destruct o as [name source|source|]; simpl.
  - pose proof (AppendStreamReader_extends appender name source w).
    by destruct (AppendStreamReader appender name source w) as [[? ?] ?].
  - pose proof (AppendFile_extends appender source w).
    by destruct (AppendFile appender source w) as [[? ?] ?].
  - pose proof (Close_extends appender w).
    by destruct (Close appender w) as [? ?].
Qed.

End Frame.

(** * The reference codecs satisfy the laws of the libraries *)

Module RefLaws.
Import RefCodec.

Lemma get_put_nat n rest : get_nat (put_nat n ++ rest) = Some (n, rest).
Proof.
  unfold put_nat. induction n as [|n IH]; simpl; [done|]. by rewrite IH.
Qed.

Lemma get_put_string s rest : get_string (put_string s ++ rest) = Some (s, rest).
Proof.
  unfold get_string, put_string. rewrite <- app_assoc, get_put_nat.
  rewrite length_app.
  destruct (Nat.leb_spec (length (String.list_byte_of_string s))
              (length (String.list_byte_of_string s) + length rest)); [|lia].
  rewrite take_app_length, drop_app_length.
  by rewrite String.string_of_list_byte_of_string.
Qed.

Lemma get_put_int64 z rest :
  int64_range z → get_int64 (put_int64 z ++ rest) = Some (z, rest).
Proof.
  intros Hz. unfold get_int64, put_int64.
  assert (Hlen : length (PutUint64 (uint64 z)) = 8%nat) by done.
  rewrite length_app, Hlen. cbn [Nat.add Nat.leb].
  rewrite take_app_length', drop_app_length' by done.
  rewrite Uint64_PutUint64. unfold uint64 at 1. rewrite Z.mod_mod by lia.
  fold (uint64 z). by rewrite int64_uint64.
Qed.

Lemma get_put_entry e rest :
  entry_ok e → get_entry (put_entry e ++ rest) = Some (e, rest).
Proof.
  destruct e as [name [start size]]. intros [H1 H2].
  unfold get_entry, put_entry. cbn [fst snd StartFilePtr ZippedSize] in *.
  rewrite <- !app_assoc, get_put_string.
  rewrite get_put_int64 by done. by rewrite get_put_int64.
Qed.

Lemma get_put_entries es rest :
  Forall entry_ok es →
  get_entries (length es) (concat (put_entry <$> es) ++ rest) = Some (es, rest).
Proof.
  induction 1 as [|e es He _ IH]; [done|].
  cbn [length get_entries fmap list_fmap concat].
  rewrite <- app_assoc, get_put_entry by done. by rewrite IH.
Qed.

Lemma decode_marshal m rest :
  json_faithful (λ _, True) m → decode (marshal m ++ rest) = Some m.
Proof.
  intros [_ Hm]. unfold decode, marshal.
  rewrite <- !app_assoc, get_put_string, get_put_nat, get_put_entries.
  - rewrite list_to_map_to_list. by destruct m.
  - apply Forall_forall. intros [name e] Hin.
    apply elem_of_map_to_list in Hin. destruct (Hm name e Hin) as (_ & ? & ?). done.
Qed.

End RefLaws.

Definition ref_gzip : GzipLib := {|
  gzip := RefCodec.store;
  gzip_flushed := RefCodec.flushed;
  gzip_header_ok := RefCodec.header_ok;
  gunzip := RefCodec.unstore;
  gzip_header := λ d, eq_refl;
  gunzip_gzip := λ d, eq_refl;
  gzip_nonempty := λ d, (ltac:(discriminate) : RefCodec.store d ≠ [])
|}.

Definition ref_json : JsonLib := {|
  json_Marshal := RefCodec.marshal;
  json_Decode := RefCodec.decode;
  json_text_ok := λ _, True;
  json_version_ok := I;
  json_Decode_Marshal := RefLaws.decode_marshal
|}.

(** The reader of the stored framing delivers nothing of a stream it
    rejects. *)
Definition ref_gzip_reader : GzipReaderLib := {|
  gunzip_partial := λ _, []
|}.

(** Runs of the appender with the reference codecs. *)
Module Runs.

(** One block appended to the target. *)
Definition append : (BinAppender.t * option error) * World :=
  @BinAppender.AppendStreamReader ref_gzip Scenario.fresh "a"
    (BytesReader Sample.a_bytes None) (Scenario.appending Sample.binary []).

(** [AppendFile] of the asset where the seventh system call, the close of
    the source, fails. *)
Definition append_file_close_fails : (BinAppender.t * option error) * World :=
  @BinAppender.AppendFile ref_gzip Scenario.fresh Sample.asset
    (Scenario.appending Sample.binary [Pass; Pass; Pass; Pass; Pass; Pass; Fail 0]).

(** The world after [Close] on the fresh appender. *)
Definition closed : World :=
  (@BinAppender.Close ref_json Scenario.fresh (Scenario.appending Sample.binary [])).2.

End Runs.

(** * Handles: what a call leaves open *)

Lemma same_handles_except_refl n w : same_handles_except n w w.
Proof. by intros m _. Qed.

Lemma same_handles_except_trans n w1 w2 w3 :
  same_handles_except n w1 w2 → same_handles_except n w2 w3 → same_handles_except n w1 w3.
Proof. intros H12 H23 m Hm. rewrite H23, H12; done. Qed.

Lemma File_Seek_except n off wh w :
  same_handles_except n w (File_Seek (fd n) off wh w).2.
Proof.
  unfold File_Seek. destruct (handles w !! n) as [h|]; [|apply same_handles_except_refl].
  simpl. destruct (faults w) as [|[|k] fl]; simpl; try (by intros m Hm).
  all: destruct (_ <? 0); intros m Hm; simpl; try done.
  all: by rewrite lookup_insert_ne.
Qed.

Lemma File_Read_except n size w :
  same_handles_except n w (File_Read (fd n) size w).2.
Proof.
  unfold File_Read. destruct (handles w !! n) as [h|]; [|apply same_handles_except_refl].
  simpl. destruct (faults w) as [|[|k] fl]; simpl.
  1,2: destruct (take size _) as [|b l]; destruct size; intros m Hm; simpl; try done;
       by rewrite lookup_insert_ne.
  intros m Hm. simpl. by rewrite lookup_insert_ne.
Qed.

Lemma File_ReadToEnd_except n w :
  same_handles_except n w (File_ReadToEnd (fd n) w).2.
Proof.
  unfold File_ReadToEnd. destruct (handles w !! n) as [h|]; [|apply same_handles_except_refl].
  intros m Hm. simpl. by rewrite lookup_insert_ne.
Qed.

Lemma File_Close_releases n w :
  same_handles_except n w (File_Close (fd n) w).2
  ∧ handles (File_Close (fd n) w).2 !! n = None.
Proof.
  unfold File_Close. destruct (handles w !! n) as [h|] eqn:E.
  - simpl. split; [|apply lookup_delete_eq].
    intros m Hm. simpl. by rewrite lookup_delete_ne.
  - split; [apply same_handles_except_refl|done].
Qed.

Lemma released_same_handles n w w' :
  handles w !! n = None →
  same_handles_except n w w' →
  handles w' !! n = None →
  handles w' = handles w.
Proof.
  intros Hn Hexc Hn'. apply map_eq. intros m.
  destruct (decide (m = n)) as [->|Hm]; [congruence|by apply Hexc].
Qed.

(** * The properties of the specification *)

(** ** C1: round trip *)

(** C1. Round trip: whatever was in the file and whatever blocks were
    appended before and after, the bytes [B] appended under the name [N]
    with [AppendStreamReader] are what [ByteArray N] of a fresh extractor
    returns once the appender is closed. No system call fails, the names
    are ones the index encoding carries unchanged, [N] is not appended
    again afterwards, and the file stays within [int64] offsets. *)
Theorem round_trip `{!GzipLib} `{!JsonLib} (w : World) (p : string) (c0 : list byte)
    (pre post : list (string * list byte)) (N : string) (B : list byte) :
  faults w = [] →
  files w !! p = Some c0 →
  Forall json_text_ok (pre ++ (N, B) :: post).*1 →
  N ∉ post.*1 →
  Z.of_nat (length (c0 ++ body_of (pre ++ (N, B) :: post))) < 2 ^ 63 →
  ∃ w1 w2,
    write_container p (pre ++ (N, B) :: post) w = (None, w1)
    ∧ read_block p N w1 = (Returns (B, None), w2).
Proof.
  intros Hf Hp Hnames Hlast Hsize.
  set (items := pre ++ (N, B) :: post) in *.
  destruct (write_container_quiet w p c0 items) as (w1 & E1 & Hq1 & _); [done|].
  destruct (read_block_quiet w1 p c0 items (length pre) N B) as (w2 & E2 & _); try done.
  - unfold items. by rewrite list_lookup_middle.
  - unfold items. rewrite cons_middle, app_assoc.
    rewrite drop_app_length'; [done|]. rewrite length_app. simpl. lia.
  - by exists w1, w2.
Qed.

Lemma round_trip_witness :
  ∃ w1 w2,
    @write_container ref_gzip ref_json Sample.target
      ([] ++ ("a"%string, Sample.a_bytes) :: [("b"%string, [])]) Sample.world = (None, w1)
    ∧ @read_block ref_gzip ref_json Sample.target "a" w1
      = (Returns (Sample.a_bytes, None), w2).
Proof.
  apply (@round_trip ref_gzip ref_json Sample.world Sample.target Sample.binary).
  - reflexivity.
  - reflexivity.
  - repeat constructor.
  - intros Hin. apply list_elem_of_In in Hin. simpl in Hin.
    destruct Hin as [Hin|[]]. discriminate Hin.
  - vm_compute. reflexivity.
Defined.

(** ** C2: duplicate names *)

(** Against C2 as stated. [AppendStreamReader] has no duplicate check:
    with the name [a] already in the index, a second call under that name
    returns no error and the file grows. *)
Lemma AppendStreamReader_accepts_duplicate :
  ∃ a1 w1 a2 w2,
    @fill_container ref_gzip Sample.target [("a"%string, Sample.a_bytes)] Sample.world
      = ((Some a1, None), w1)
    ∧ is_Some (Data (BinAppender.metadata a1) !! "a"%string)
    ∧ @BinAppender.AppendStreamReader ref_gzip a1 "a" (BytesReader [Byte.x09] None) w1
      = ((a2, None), w2)
    ∧ (length (contents w1 Sample.target) < length (contents w2 Sample.target))%nat.
Proof.
  eexists _, _, _, _.
  split; [vm_compute; reflexivity|].
  split; [vm_compute; eauto|].
  split; [vm_compute; reflexivity|].
  vm_compute. lia.
Qed.

(** C2, amended. The duplicate check is the one of [AppendFile]: when the
    name is already in the index of the appender, the call fails, the
    appender is as it was and no file has changed; the error is the
    duplicate-name error whenever the source can be opened. *)
Theorem AppendFile_rejects_duplicate `{!GzipLib}
    (appender : BinAppender.t) (source : string) (w : World) :
  is_Some (Data (BinAppender.metadata appender) !! source) →
  ∃ e w',
    BinAppender.AppendFile appender source w = ((appender, Some e), w')
    ∧ files w' = files w
    ∧ (faults w = [] → is_Some (files w !! source) → e = Errorf duplicate_msg [source]).
Proof.
  intros [entry Hentry]. unfold BinAppender.AppendFile, os_Open.
  pose proof (os_OpenFile_files source false w) as Hfs.
  destruct (os_OpenFile source false w) as [[sourceHandle [e|]] w1] eqn:E; simpl in Hfs.
  - exists e, w1. split; [done|]. split; [done|].
    intros Hq [c Hc]. destruct w as [fs hs nf fl tr]. simpl in *. subst fl.
    erewrite os_OpenFile_quiet in E by eauto. discriminate E.
  - rewrite Hentry. eexists _, w1. done.
Qed.

Lemma AppendFile_rejects_duplicate_witness :
  ∃ e w',
    @BinAppender.AppendFile ref_gzip (@Sample.packed ref_gzip).1 Sample.asset
      (@Sample.packed ref_gzip).2
    = (((@Sample.packed ref_gzip).1, Some e), w')
    ∧ files w' = files (@Sample.packed ref_gzip).2
    ∧ (faults (@Sample.packed ref_gzip).2 = [] →
       is_Some (files (@Sample.packed ref_gzip).2 !! Sample.asset) →
       e = Errorf duplicate_msg [Sample.asset]).
Proof.
  apply (@AppendFile_rejects_duplicate ref_gzip).
  vm_compute. eauto.
Defined.

(** ** C3: offsets *)

Lemma block_within_body `{!GzipLib} (items : list (string * list byte)) i name d :
  items !! i = Some (name, d) →
  (sum_list (take i (sizes_of items)) + length (gzip d) ≤ sum_list (sizes_of items))%nat.
Proof.
  intros Hi. rewrite <- (take_drop_middle items i (name, d)) at 2 by done.
  unfold sizes_of at 2. rewrite fmap_app, sum_list_with_app.
  fold (sizes_of (take i items)). rewrite sizes_of_take. simpl. lia.
Qed.

(** Against C3 as stated. Offsets are counted from the start of the file,
    not from the first block: on a target that already holds four bytes,
    the first block is recorded at offset 4, while no compressed block
    precedes it. *)
Lemma StartFilePtr_counts_existing_bytes :
  ∃ a w1 e,
    @fill_container ref_gzip Sample.target Sample.blocks Sample.world
      = ((Some a, None), w1)
    ∧ Sample.blocks !! 0%nat = Some ("a"%string, Sample.a_bytes)
    ∧ Data (BinAppender.metadata a) !! "a"%string = Some e
    ∧ StartFilePtr e
        ≠ Z.of_nat (sum_list (take 0 (@sizes_of ref_gzip Sample.blocks))).
Proof.
  eexists _, _, _.
  split; [vm_compute; reflexivity|].
  split; [reflexivity|].
  split; [vm_compute; reflexivity|].
  vm_compute. discriminate.
Qed.

(** C3, amended. After [k] blocks appended to a file that held [c0] and
    [Close]: each block that is still in the index is recorded at the
    length of [c0] plus the compressed sizes of the blocks appended before
    it, with its own compressed size; the last eight bytes of the file,
    read as a little-endian unsigned integer, are the length of [c0] plus
    all the compressed sizes, and at that offset the serialized index
    begins and runs up to those eight bytes. *)
Theorem offset_bookkeeping `{!GzipLib} `{!JsonLib} (w : World) (p : string)
    (c0 : list byte) (items : list (string * list byte)) :
  faults w = [] →
  files w !! p = Some c0 →
  Z.of_nat (length (c0 ++ body_of items)) < 2 ^ 63 →
  ∃ a w1 w2,
    fill_container p items w = ((Some a, None), w1)
    ∧ BinAppender.Close a w1 = (None, w2)
    ∧ (∀ i name d,
         items !! i = Some (name, d) →
         name ∉ (drop (S i) items).*1 →
         Data (BinAppender.metadata a) !! name =
           Some (mk_appendedData
                   (Z.of_nat (length c0 + sum_list (take i (sizes_of items))))
                   (Z.of_nat (length (gzip d)))))
    ∧ let final := contents w2 p in
      let index_offset := Z.of_nat (length c0 + sum_list (sizes_of items)) in
      Uint64 (drop (length final - 8) final) = index_offset
      ∧ drop (Z.to_nat index_offset) final
        = json_Marshal (BinAppender.metadata a) ++ drop (length final - 8) final.
Proof.
  intros Hf Hp Hsize.
  destruct (fill_container_quiet w p c0 items) as (w1 & E1 & Hr1 & _); [done|].
  destruct (Close_quiet w1 (next_fd w) p _ (index_after c0 items) Hr1)
    as (w2 & E2 & [_ Hp2] & _).
  eexists _, w1, w2. split; [exact E1|]. split; [exact E2|].
  pose proof Hsize as Hsum. rewrite length_app, length_body_of in Hsum.
  split.
  - intros i name d Hi Hlast. simpl.
    rewrite (index_of_lookup items i (length c0) ∅ name d Hi Hlast).
    pose proof (block_within_body items i name d Hi).
    rewrite int64_small by (unfold int64_range; lia). done.
  - unfold contents. rewrite Hp2. simpl.
    set (J := json_Marshal (index_after c0 items)).
    set (T := PutUint64 (uint64 (Z.of_nat (length (c0 ++ body_of items))))).
    assert (HT : length T = 8%nat) by reflexivity.
    assert (Hdrop : drop (length ((c0 ++ body_of items) ++ J ++ T) - 8)
                         ((c0 ++ body_of items) ++ J ++ T) = T).
    { rewrite (app_assoc _ J T). apply drop_app_length'. rewrite !length_app. lia. }
    rewrite Hdrop. split.
    + unfold T. rewrite Uint64_PutUint64. unfold uint64. rewrite Z.mod_mod by lia.
      rewrite Z.mod_small by lia. rewrite length_app, length_body_of. done.
    + rewrite Nat2Z.id, <- length_body_of, <- length_app. by rewrite drop_app_length.
Qed.

Lemma offset_bookkeeping_witness :
  ∃ a w1 w2,
    @fill_container ref_gzip Sample.target Sample.blocks Sample.world
      = ((Some a, None), w1)
    ∧ @BinAppender.Close ref_json a w1 = (None, w2)
    ∧ (∀ i name d,
         Sample.blocks !! i = Some (name, d) →
         name ∉ (drop (S i) Sample.blocks).*1 →
         Data (BinAppender.metadata a) !! name =
           Some (mk_appendedData
                   (Z.of_nat (length Sample.binary
                              + sum_list (take i (@sizes_of ref_gzip Sample.blocks))))
                   (Z.of_nat (length (@gzip ref_gzip d)))))
    ∧ let final := contents w2 Sample.target in
      let index_offset :=
        Z.of_nat (length Sample.binary + sum_list (@sizes_of ref_gzip Sample.blocks)) in
      Uint64 (drop (length final - 8) final) = index_offset
      ∧ drop (Z.to_nat index_offset) final
        = @json_Marshal ref_json (BinAppender.metadata a)
            ++ drop (length final - 8) final.
Proof.
  apply (@offset_bookkeeping ref_gzip ref_json Sample.world Sample.target
           Sample.binary Sample.blocks).
  - reflexivity.
  - reflexivity.
  - vm_compute. reflexivity.
Defined.

(** ** C4: the name [AppendFile] records *)

(** Against C4 as stated. The block is recorded under the path as given:
    after [AppendFile] of [assets/logo.png] the index has an entry for that
    string and none for [logo.png], the final component. *)
Lemma AppendFile_name_is_not_base_name :
  ∃ a0 w0 a1 w1,
    MakeAppender Sample.target Sample.world = ((Some a0, None), w0)
    ∧ @BinAppender.AppendFile ref_gzip a0 Sample.asset w0 = ((a1, None), w1)
    ∧ spec_base_name Sample.asset = "logo.png"%string
    ∧ Data (BinAppender.metadata a1) !! spec_base_name Sample.asset = None
    ∧ is_Some (Data (BinAppender.metadata a1) !! Sample.asset).
Proof.
  eexists _, _, _, _.
  split; [vm_compute; reflexivity|].
  split; [vm_compute; reflexivity|].
  split; [reflexivity|].
  split; [vm_compute; reflexivity|].
  vm_compute. eauto.
Qed.

(** A successful [AppendStreamReader] changes the index at the given name
    and nowhere else. *)
Lemma AppendStreamReader_index `{!GzipLib} appender name source w a' w' :
  BinAppender.AppendStreamReader appender name source w = ((a', None), w') →
  ∃ entry, a' = BinAppender.set_Data appender name entry.
Proof.
  unfold BinAppender.AppendStreamReader.
  destruct (File_Seek _ 0 SeekEnd w) as [[startPtr [e|]] w1]; [done|].
  destruct (BinAppender.io_Copy _ source w1) as [[d [e|]] w2]; [done|].
  destruct (BinAppender.gzWriter_Close _ d w2) as [cerr w3].
  destruct (File_Seek _ 0 SeekEnd w3) as [[endPtr [e|]] w4]; [done|].
  intros [= <- _]. eauto.
Qed.

(** C4, amended. Whenever [AppendFile(p)] succeeds, it has opened [p],
    handed that handle to [AppendStreamReader] under the name [p], the path
    string as given, and closed the handle: the index has an entry under
    [p], its other entries are as before, and the source descriptor is no
    longer open. *)
Theorem AppendFile_records_path `{!GzipLib} (appender : BinAppender.t) (p : string)
    (w : World) (a' : BinAppender.t) (w' : World) :
  BinAppender.AppendFile appender p w = ((a', None), w') →
  ∃ n w1 w2,
    os_Open p w = ((fd n, None), w1)
    ∧ BinAppender.AppendStreamReader appender p (FileReader (fd n)) w1 = ((a', None), w2)
    ∧ File_Close (fd n) w2 = (None, w')
    ∧ is_Some (Data (BinAppender.metadata a') !! p)
    ∧ (∀ name, name ≠ p →
         Data (BinAppender.metadata a') !! name
         = Data (BinAppender.metadata appender) !! name)
    ∧ handles w' !! n = None.
Proof.
  unfold BinAppender.AppendFile.
  destruct (os_Open p w) as [[sourceHandle [e|]] w1] eqn:E1; [done|].
  destruct (Data (BinAppender.metadata appender) !! p); [done|].
  destruct (BinAppender.AppendStreamReader appender p (FileReader sourceHandle) w1)
    as [[a1 [e|]] w2] eqn:E2; [done|].
  destruct (File_Close sourceHandle w2) as [cerr w3] eqn:E3.
  intros [= -> -> ->].
  assert (Hfd : ∃ n, sourceHandle = fd n).
  { destruct sourceHandle as [|n]; [done|eauto]. }
  destruct Hfd as [n ->].
  destruct (AppendStreamReader_index _ _ _ _ _ _ E2) as [entry ->].
  destruct (File_Close_releases n w2) as [_ Hclosed]. rewrite E3 in Hclosed.
  exists n, w1, w2. split; [done|]. split; [done|]. split; [done|].
  split; [simpl; rewrite lookup_insert_eq; eauto|].
  split; [|done]. intros name Hne. simpl. by rewrite lookup_insert_ne.
Qed.

Lemma AppendFile_records_path_witness :
  ∃ n w1 w2,
    os_Open Sample.asset (MakeAppender Sample.target Sample.world).2 = ((fd n, None), w1)
    ∧ @BinAppender.AppendStreamReader ref_gzip
        (BinAppender.mk (fd 3) (mk_appendedMetadata METADATA_VERSION ∅)) Sample.asset
        (FileReader (fd n)) w1
      = (((@Sample.packed ref_gzip).1, None), w2)
    ∧ File_Close (fd n) w2 = (None, (@Sample.packed ref_gzip).2)
    ∧ is_Some (Data (BinAppender.metadata (@Sample.packed ref_gzip).1) !! Sample.asset)
    ∧ (∀ name, name ≠ Sample.asset →
         Data (BinAppender.metadata (@Sample.packed ref_gzip).1) !! name
         = Data (mk_appendedMetadata METADATA_VERSION ∅) !! name)
    ∧ handles (@Sample.packed ref_gzip).2 !! n = None.
Proof.
  apply (@AppendFile_records_path ref_gzip
           (BinAppender.mk (fd 3) (mk_appendedMetadata METADATA_VERSION ∅)) Sample.asset
           (MakeAppender Sample.target Sample.world).2).
  vm_compute. reflexivity.
Defined.

(** With no failing system call, for a source file [p] other than the
    target and not in the index yet, the call does succeed: the entry under
    [p] has the offset and the size of the compressed contents of [p], as a
    direct [AppendStreamReader] with those bytes records them. *)
Lemma AppendFile_succeeds `{!GzipLib} (w : World) (n : nat) (target : string)
    (pos : nat) (c : list byte) (md : appendedMetadata) (p : string) (d : list byte) :
  faults w = [] →
  files w !! target = Some c →
  handles w !! n = Some (mkOpenFile target pos true) →
  (n < next_fd w)%nat →
  files w !! p = Some d →
  p ≠ target →
  Data md !! p = None →
  ∃ a' w' w'',
    BinAppender.AppendFile (BinAppender.mk (fd n) md) p w = ((a', None), w')
    ∧ Data (BinAppender.metadata a') !! p
      = Some (mk_appendedData (Z.of_nat (length c)) (int64 (Z.of_nat (length (gzip d)))))
    ∧ BinAppender.AppendStreamReader (BinAppender.mk (fd n) md) p (BytesReader d None) w
      = ((a', None), w'')
    ∧ files w' = files w''.
Proof.
  intros Hf Hc Hn Hlt Hd Hne Hfresh.
  assert (Hr : appender_ready w n target c) by (split; [done|]; split; eauto).
  destruct (AppendFile_quiet w n target c md p d Hr Hd Hne Hlt Hfresh)
    as (w' & E & _ & Hfs & Hclosed).
  destruct (AppendStreamReader_quiet w n target c md p d Hr) as (w'' & E' & _ & Hfs' & _).
  eexists _, w', w''. split; [exact E|].
  split.
  - simpl. rewrite lookup_insert_eq. do 3 f_equal. rewrite length_app. lia.
  - split; [exact E'|]. congruence.
Qed.

(** ** C5: [ByteArray] when [GetReader] fails *)

(** [GetReader] returns the nil reader with every error. *)
Lemma GetReader_error_nil `{!GzipLib} x name w r e w' :
  BinAppendExtractor.GetReader x name w = ((r, Some e), w') → r = None.
Proof.
  unfold BinAppendExtractor.GetReader.
  destruct (Data (BinAppendExtractor.metadata x) !! name) as [entry|]; [|by intros [= <- _ _]].
  destruct (os_Open _ w) as [[fh [e1|]] w1]; [by intros [= <- _ _]|].
  destruct (File_Seek fh _ SeekStart w1) as [[off [e2|]] w2]; [by intros [= <- _ _]|].
  destruct (gzip_NewReader fh _ w2) as [[gz|e3] w3]; [done|by intros [= <- _ _]].
Qed.

(** C5, as the code has it. Whenever [GetReader] fails, [ByteArray] does
    not return the error: the deferred [reader.Close()] runs on the nil
    reader and the call panics. *)
Theorem ByteArray_panics_when_GetReader_fails `{!GzipLib}
    (x : BinAppendExtractor.t) (name : string) (w : World)
    (r : option BinAppendReader.t) (e : error) (w' : World) :
  BinAppendExtractor.GetReader x name w = ((r, Some e), w') →
  BinAppendExtractor.ByteArray x name w = (Panics, w').
Proof.
  intros E. pose proof (GetReader_error_nil x name w r e w' E) as ->.
  unfold BinAppendExtractor.ByteArray. rewrite E. reflexivity.
Qed.

Lemma ByteArray_panics_witness :
  @BinAppendExtractor.ByteArray ref_gzip Sample.broken "c" Sample.world
  = (Panics, Sample.world).
Proof.
  apply (@ByteArray_panics_when_GetReader_fails ref_gzip Sample.broken "c" Sample.world
           None (Errorf not_found_msg ["c"%string]) Sample.world).
  reflexivity.
Defined.

(** On the other paths the property holds: once [GetReader] has delivered a
    reader, [ByteArray] returns (data or error) and the reader's handle is
    closed, whether the read or the first [Close] fails or not. *)
Lemma GetReader_reader_handle `{!GzipLib} x name w r w1 :
  BinAppendExtractor.GetReader x name w = ((Some r, None), w1) →
  ∃ n, BinAppendReader.fileHandle r = fd n.
Proof.
  unfold BinAppendExtractor.GetReader.
  destruct (Data (BinAppendExtractor.metadata x) !! name) as [entry|]; [|done].
  unfold os_Open, os_OpenFile. simpl.
  destruct (match faults w with [] => Pass | f :: _ => f end); [|done].
  destruct (files w !! BinAppendExtractor.filename x); [|done].
  destruct (File_Seek _ _ SeekStart _) as [[off [e2|]] w2]; [done|].
  destruct (gzip_NewReader _ _ w2) as [[gz|e3] w3]; [|done].
  intros [= <- _]. simpl. eauto.
Qed.

Lemma ByteArray_closes_reader `{!GzipLib} x name w r w1 :
  BinAppendExtractor.GetReader x name w = ((Some r, None), w1) →
  ∃ n res,
    BinAppendReader.fileHandle r = fd n
    ∧ (BinAppendExtractor.ByteArray x name w).1 = Returns res
    ∧ handles (BinAppendExtractor.ByteArray x name w).2 !! n = None.
Proof.
  intros E. destruct (GetReader_reader_handle x name w r w1 E) as [n Hn].
  unfold BinAppendExtractor.ByteArray. rewrite E.
  unfold BinAppendReader.ReadAll, BinAppendExtractor.deferred_Close, BinAppendReader.Close.
  rewrite Hn.
  destruct (File_Close_releases n w1) as [_ Hc1].
  destruct (gunzip (gz_stream (BinAppendReader.gzReader r))) as [data|].
  - destruct (File_Close (fd n) w1) as [cerr w2]. simpl in Hc1.
    destruct (File_Close_releases n w2) as [_ Hc2].
    destruct cerr as [e|]; destruct (File_Close (fd n) w2) as [cerr2 w3]; simpl in *; eauto.
  - destruct (File_Close (fd n) w1) as [cerr w2]. simpl in *. eauto.
Qed.

(** The end-to-end scenario of the specification: [a] and [b] come back,
    asking for [c], which was never appended, panics. *)
Lemma end_to_end_scenario :
  ∃ w1,
    @write_container ref_gzip ref_json Sample.target Sample.blocks Sample.world
      = (None, w1)
    ∧ (@read_block ref_gzip ref_json Sample.target "a" w1).1
      = Returns (Sample.a_bytes, None)
    ∧ (@read_block ref_gzip ref_json Sample.target "b" w1).1 = Returns ([], None)
    ∧ (@read_block ref_gzip ref_json Sample.target "c" w1).1 = Panics.
Proof.
  eexists. split; [vm_compute; reflexivity|].
  repeat split; vm_compute; reflexivity.
Qed.

(** ** C6: handles on the error paths *)

(** C6, as the code has it. [AppendFile] opens the source before it looks
    the name up: on the duplicate-name path it returns with the source
    handle still open and handed to nobody. *)
Theorem AppendFile_duplicate_leaks_source `{!GzipLib}
    (appender : BinAppender.t) (source : string) (w : World) (c : list byte) :
  faults w = [] →
  files w !! source = Some c →
  is_Some (Data (BinAppender.metadata appender) !! source) →
  ∃ w',
    BinAppender.AppendFile appender source w
      = ((appender, Some (Errorf duplicate_msg [source])), w')
    ∧ handles w' !! next_fd w = Some (mkOpenFile source 0 false).
Proof.
  destruct w as [fs hs nf fl tr]. intros Hf Hc [entry Hentry]. simpl in *. subst fl.
  unfold BinAppender.AppendFile, os_Open.
  quiet_step os_OpenFile_quiet. rewrite Hentry.
  eexists. split; [reflexivity|]. apply lookup_insert_eq.
Qed.

Lemma AppendFile_duplicate_leaks_source_witness :
  ∃ w',
    @BinAppender.AppendFile ref_gzip (@Sample.packed ref_gzip).1 Sample.asset
      (@Sample.packed ref_gzip).2
    = (((@Sample.packed ref_gzip).1, Some (Errorf duplicate_msg [Sample.asset])), w')
    ∧ handles w' !! next_fd (@Sample.packed ref_gzip).2
      = Some (mkOpenFile Sample.asset 0 false).
Proof.
  apply (@AppendFile_duplicate_leaks_source ref_gzip _ _ _ Sample.logo).
  - vm_compute. reflexivity.
  - vm_compute. reflexivity.
  - vm_compute. eauto.
Defined.

(** [GetReader] has the same defect after its [os.Open]: when the bytes at
    the recorded offset are not a gzip stream it returns the nil reader and
    the handle it opened stays open. *)
Lemma GetReader_bad_block_leaks `{!GzipLib} (w : World) (x : BinAppendExtractor.t)
    (name : string) (entry : appendedData) (content : list byte) :
  let block :=
    take (Z.to_nat (ZippedSize entry)) (drop (Z.to_nat (StartFilePtr entry)) content) in
  quiet_file w (BinAppendExtractor.filename x) content →
  Data (BinAppendExtractor.metadata x) !! name = Some entry →
  0 ≤ StartFilePtr entry →
  block ≠ [] →
  gzip_header_ok block = false →
  ∃ w',
    BinAppendExtractor.GetReader x name w
      = ((None, Some (Wrap "creating gzip reader" ErrGzipHeader)), w')
    ∧ is_Some (handles w' !! next_fd w).
Proof.
  destruct w as [fs hs nf fl tr]. destruct x as [p md].
  intros block [Hf Hp] He Hs Hne Hbad. simpl in *. subst fl.
  unfold BinAppendExtractor.GetReader.
  simpl BinAppendExtractor.metadata. simpl BinAppendExtractor.filename.
  rewrite He. unfold os_Open.
  quiet_step os_OpenFile_quiet.
  erewrite (File_Seek_quiet _ _ _ _ _ _ _ _ _ _ SeekStart)
    by (try apply lookup_insert_eq; eauto; lia).
  cbv beta iota zeta. rewrite !Z.add_0_l. unfold gzip_NewReader.
  erewrite File_Read_quiet; [| apply lookup_insert_eq | eauto | exact Hne].
  fold block. cbv beta iota zeta. rewrite Hbad.
  eexists. split; [reflexivity|]. simpl. rewrite lookup_insert_eq. eauto.
Qed.

Lemma GetReader_leak_on_sample :
  ∃ w',
    @BinAppendExtractor.GetReader ref_gzip Sample.broken "a" Sample.world
      = ((None, Some (Wrap "creating gzip reader" ErrGzipHeader)), w')
    ∧ handles w' !! 3%nat = Some (mkOpenFile Sample.target 4 false).
Proof. eexists. split; vm_compute; reflexivity. Qed.

(** [MakeAppendExtractor], in contrast, closes its handle on every path,
    whatever fails. *)
Lemma MakeAppendExtractor_releases `{!JsonLib} (p : string) (w : World) :
  handles w !! next_fd w = None →
  handles (MakeAppendExtractor p w).2 = handles w.
Proof.
  intros Hfresh. unfold MakeAppendExtractor, os_Open.
  assert (Hopen :
    (∃ e w1, os_OpenFile p false w = ((nil_file, Some e), w1) ∧ handles w1 = handles w)
    ∨ (∃ w1, os_OpenFile p false w = ((fd (next_fd w), None), w1)
             ∧ same_handles_except (next_fd w) w w1)).
  { unfold os_OpenFile. simpl.
    destruct (faults w) as [|[|k] fl]; simpl; try (left; by eexists _, _).
    all: destruct (files w !! p); [right|left; by eexists _, _].
    all: eexists; split; [done|]; intros m Hm; simpl; by rewrite lookup_insert_ne. }
  destruct Hopen as [(e & w1 & -> & Hh)|(w1 & -> & H1)]; [done|].
  set (n := next_fd w) in *.
  assert (Hclose : ∀ w', same_handles_except n w w' →
            handles (File_Close (fd n) w').2 = handles w).
  { intros w' Hw'. destruct (File_Close_releases n w') as [Hc1 Hc2].
    apply (released_same_handles n); [done| |done].
    by apply (same_handles_except_trans n w w'). }
  cbv beta iota zeta.
  pose proof (File_Seek_except n (-8) SeekEnd w1) as H2.
  destruct (File_Seek (fd n) (-8) SeekEnd w1) as [[off [e|]] w2]; simpl in H2.
  { specialize (Hclose w2 (same_handles_except_trans _ _ _ _ H1 H2)).
    by destruct (File_Close (fd n) w2). }
  pose proof (File_Read_except n 8 w2) as H3.
  destruct (File_Read (fd n) 8 w2) as [[bytes [e|]] w3]; simpl in H3.
  { specialize (Hclose w3 (same_handles_except_trans _ _ _ _
                             (same_handles_except_trans _ _ _ _ H1 H2) H3)).
    by destruct (File_Close (fd n) w3). }
  assert (H13 : same_handles_except n w w3).
  { eapply same_handles_except_trans; [|exact H3].
    eapply same_handles_except_trans; done. }
  destruct (negb (length bytes =? 8)%nat).
  { specialize (Hclose w3 H13). by destruct (File_Close (fd n) w3). }
  pose proof (File_Seek_except n (int64 (Uint64 bytes)) SeekStart w3) as H4.
  destruct (File_Seek (fd n) (int64 (Uint64 bytes)) SeekStart w3) as [[off' [e|]] w4];
    simpl in H4.
  { specialize (Hclose w4 (same_handles_except_trans _ _ _ _ H13 H4)).
    by destruct (File_Close (fd n) w4). }
  pose proof (File_ReadToEnd_except n w4) as H5.
  destruct (File_ReadToEnd (fd n) w4) as [[stream rerr] w5]; simpl in H5.
  specialize (Hclose w5 (same_handles_except_trans _ _ _ _
                           (same_handles_except_trans _ _ _ _ H13 H4) H5)).
  destruct rerr as [e|]; [by destruct (File_Close (fd n) w5)|].
  destruct (json_Decode stream) as [m|]; [|by destruct (File_Close (fd n) w5)].
  destruct (negb (String.eqb (Version m) METADATA_VERSION));
    [by destruct (File_Close (fd n) w5)|].
  by destruct (File_Close (fd n) w5) as [[e|] w6].
Qed.

(** ** C7: the version gate *)

(** C7. A container whose last eight bytes point at an index that decodes
    to a [Version] other than [METADATA_VERSION] is refused with the
    version-mismatch error, whatever else the file holds; the discovery
    handle is closed. No system call fails. *)
Theorem version_gate `{!JsonLib} (w : World) (p : string) (content : list byte)
    (m : appendedMetadata) :
  faults w = [] →
  files w !! p = Some content →
  (8 ≤ length content)%nat →
  0 ≤ int64 (Uint64 (drop (length content - 8) content)) →
  json_Decode
    (drop (Z.to_nat (int64 (Uint64 (drop (length content - 8) content)))) content) = Some m →
  Version m ≠ METADATA_VERSION →
  ∃ w',
    MakeAppendExtractor p w
      = ((None, Some (Errorf version_mismatch_msg [METADATA_VERSION; Version m; p])), w')
    ∧ handles w' = delete (next_fd w) (handles w).
Proof.
  intros Hf Hp Hlen Hptr Hdec Hver.
  destruct (MakeAppendExtractor_decoded w p content m) as (w' & E & _ & _ & Hh); try done.
  exists w'. split; [|done]. rewrite E.
  destruct (String.eqb_spec (Version m) METADATA_VERSION); done.
Qed.

Lemma version_gate_witness :
  ∃ w',
    @MakeAppendExtractor ref_json Sample.target Sample.other_version_world
      = ((None,
          Some (Errorf version_mismatch_msg
                  [METADATA_VERSION; Version Sample.other_version; Sample.target])), w')
    ∧ handles w' = delete (next_fd Sample.other_version_world)
                          (handles Sample.other_version_world).
Proof.
  apply (@version_gate ref_json Sample.other_version_world Sample.target
           (RefCodec.marshal Sample.other_version ++ PutUint64 0) Sample.other_version).
  - reflexivity.
  - reflexivity.
  - vm_compute. lia.
  - vm_compute. discriminate.
  - vm_compute. reflexivity.
  - discriminate.
Defined.

(** The version check holds under any failures as well: an extractor that
    [MakeAppendExtractor] returns carries the expected version. *)
Lemma MakeAppendExtractor_version `{!JsonLib} (p : string) (w : World)
    (x : BinAppendExtractor.t) (w' : World) :
  MakeAppendExtractor p w = ((Some x, None), w') →
  Version (BinAppendExtractor.metadata x) = METADATA_VERSION.
Proof.
  unfold MakeAppendExtractor.
  destruct (os_Open p w) as [[fh [e|]] w1].
  { by destruct (File_Close fh w1). }
  destruct (File_Seek fh (-8) SeekEnd w1) as [[off [e|]] w2].
  { by destruct (File_Close fh w2). }
  destruct (File_Read fh 8 w2) as [[bytes [e|]] w3].
  { by destruct (File_Close fh w3). }
  destruct (negb (length bytes =? 8)%nat).
  { by destruct (File_Close fh w3). }
  destruct (File_Seek fh _ SeekStart w3) as [[off' [e|]] w4].
  { by destruct (File_Close fh w4). }
  destruct (File_ReadToEnd fh w4) as [[stream [e|]] w5].
  { by destruct (File_Close fh w5). }
  destruct (json_Decode stream) as [m|]; [|by destruct (File_Close fh w5)].
  destruct (String.eqb_spec (Version m) METADATA_VERSION) as [Hv|Hv]; simpl.
  - destruct (File_Close fh w5) as [[e|] w6]; [done|]. by intros [= <- _].
  - by destruct (File_Close fh w5).
Qed.

(** ** C8: a name that is not in the index *)

Lemma sys_enter_trace c w : trace (sys_enter c w).2 = trace w ++ [c].
Proof. reflexivity. Qed.

(** C8. For a name that is not in the captured index, [GetReader] returns
    the not-found error and the nil reader, and the world is the one it was
    called in: no handle was opened and no system call was made (every
    system call adds to the trace). *)
Theorem GetReader_absent_name `{!GzipLib} (x : BinAppendExtractor.t) (name : string)
    (w : World) :
  Data (BinAppendExtractor.metadata x) !! name = None →
  BinAppendExtractor.GetReader x name w = ((None, Some (Errorf not_found_msg [name])), w).
Proof. intros Habsent. unfold BinAppendExtractor.GetReader. by rewrite Habsent. Qed.

Lemma GetReader_absent_name_witness :
  @BinAppendExtractor.GetReader ref_gzip Sample.broken "c" Sample.world
  = ((None, Some (Errorf not_found_msg ["c"%string])), Sample.world).
Proof.
  apply (@GetReader_absent_name ref_gzip Sample.broken "c" Sample.world).
  reflexivity.
Defined.

(** ** C9: append-only *)

(** C9. Whatever calls are made on an appender, in whatever state, with
    whatever sources, and whichever system calls fail on the way: every
    file keeps the bytes it had, at the offsets they were at, and no file
    gets shorter. *)
Theorem append_only `{!GzipLib} `{!JsonLib} (ops : list appender_op)
    (appender : BinAppender.t) (w : World) (q : string) :
  contents w q `prefix_of` contents (run_ops appender ops w).2 q
  ∧ (length (contents w q) ≤ length (contents (run_ops appender ops w).2 q))%nat.
Proof.
  assert (Hext : ∀ appender w, extends w (run_ops appender ops w).2).
  { clear appender w. induction ops as [|o ops IH]; intros appender w; simpl;
      [apply extends_refl|].
    pose proof (run_op_extends appender o w) as H1.
    destruct (run_op appender o w) as [appender' w1]. simpl in H1.
    eapply extends_trans; [exact H1 | apply IH]. }
  split; [apply Hext|]. apply prefix_length, Hext.
Qed.

(** ** C10: the same name appended twice *)

(** C10. Two [AppendStreamReader] calls under one name, [B1] then [B2],
    both succeed. The index then has the single entry of the second block,
    which starts where the first one ends; it is what a fresh extractor
    captures after [Close], and [ByteArray] returns [B2]. The compressed
    bytes of [B1] are still in the file, in a range that is not empty and
    that no entry of the index covers. No system call fails. *)
Theorem duplicate_stream_last_wins `{!GzipLib} `{!JsonLib} (w : World) (p : string)
    (c0 : list byte) (N : string) (B1 B2 : list byte) :
  faults w = [] →
  files w !! p = Some c0 →
  json_text_ok N →
  Z.of_nat (length (c0 ++ gzip B1 ++ gzip B2)) < 2 ^ 63 →
  ∃ a w1 w2 x w3 w4,
    fill_container p [(N, B1); (N, B2)] w = ((Some a, None), w1)
    ∧ Data (BinAppender.metadata a)
      = {[ N := mk_appendedData (Z.of_nat (length c0 + length (gzip B1)))
                                (Z.of_nat (length (gzip B2))) ]}
    ∧ BinAppender.Close a w1 = (None, w2)
    ∧ MakeAppendExtractor p w2 = ((Some x, None), w3)
    ∧ BinAppendExtractor.metadata x = BinAppender.metadata a
    ∧ BinAppendExtractor.ByteArray x N w3 = (Returns (B2, None), w4)
    ∧ take (length (gzip B1)) (drop (length c0) (contents w4 p)) = gzip B1
    ∧ (0 < length (gzip B1))%nat.
Proof.
  intros Hf Hp HN Hsize.
  set (items := [(N, B1); (N, B2)]).
  assert (Hbody : body_of items = gzip B1 ++ gzip B2).
  { unfold body_of. simpl. by rewrite app_nil_r. }
  assert (Hsize' : Z.of_nat (length (c0 ++ body_of items)) < 2 ^ 63) by by rewrite Hbody.
  assert (Hnames : Forall json_text_ok items.*1) by (repeat constructor; done).
  destruct (fill_container_quiet w p c0 items) as (w1 & E1 & Hr1 & _); [done|].
  destruct (Close_quiet w1 (next_fd w) p _ (index_after c0 items) Hr1)
    as (w2 & E2 & Hq2 & _).
  destruct (MakeAppendExtractor_quiet w2 p (c0 ++ body_of items) (index_after c0 items))
    as (w3 & E3 & Hf3 & Hfs3); try done.
  { by apply index_after_faithful. }
  rewrite !length_app in Hsize.
  assert (Hidx : Data (index_after c0 items)
                 = {[ N := mk_appendedData (Z.of_nat (length c0 + length (gzip B1)))
                                           (Z.of_nat (length (gzip B2))) ]}).
  { simpl. rewrite insert_insert_eq, insert_empty. do 2 f_equal.
    rewrite <- (int64_small (Z.of_nat (length (gzip B2)))) by (unfold int64_range; lia).
    f_equal. lia. }
  destruct Hq2 as [Hf2 Hp2].
  edestruct (ByteArray_quiet w3 (BinAppendExtractor.mk p (index_after c0 items)) N)
    with (d := B2) as (w4 & E4 & Hf4 & Hfs4).
  - split; [done|]. simpl. rewrite Hfs3. exact Hp2.
  - simpl BinAppendExtractor.metadata. rewrite Hidx. apply lookup_singleton_eq.
  - simpl. lia.
  - simpl. rewrite !Nat2Z.id, Hbody, <- !app_assoc.
    rewrite (app_assoc c0 (gzip B1)), <- length_app, drop_app_length.
    by rewrite take_app_length.
  - eexists _, w1, w2, _, w3, w4.
    split; [exact E1|]. split; [exact Hidx|]. split; [exact E2|].
    split; [exact E3|]. split; [done|]. split; [exact E4|].
    split.
    + unfold contents. rewrite Hfs4, Hfs3, Hp2. simpl.
      rewrite Hbody, <- !app_assoc, drop_app_length. by rewrite take_app_length.
    + pose proof (gzip_nonempty B1). destruct (gzip B1); [done|simpl; lia].
Qed.

Lemma duplicate_stream_last_wins_witness :
  ∃ a w1 w2 x w3 w4,
    @fill_container ref_gzip Sample.target
      [("a"%string, Sample.a_bytes); ("a"%string, Sample.logo)] Sample.world
      = ((Some a, None), w1)
    ∧ Data (BinAppender.metadata a)
      = {[ "a"%string :=
             mk_appendedData
               (Z.of_nat (length Sample.binary + length (@gzip ref_gzip Sample.a_bytes)))
               (Z.of_nat (length (@gzip ref_gzip Sample.logo))) ]}
    ∧ @BinAppender.Close ref_json a w1 = (None, w2)
    ∧ @MakeAppendExtractor ref_json Sample.target w2 = ((Some x, None), w3)
    ∧ BinAppendExtractor.metadata x = BinAppender.metadata a
    ∧ @BinAppendExtractor.ByteArray ref_gzip x "a" w3 = (Returns (Sample.logo, None), w4)
    ∧ take (length (@gzip ref_gzip Sample.a_bytes))
           (drop (length Sample.binary) (contents w4 Sample.target))
      = @gzip ref_gzip Sample.a_bytes
    ∧ (0 < length (@gzip ref_gzip Sample.a_bytes))%nat.
Proof.
  apply (@duplicate_stream_last_wins ref_gzip ref_json Sample.world Sample.target
           Sample.binary "a" Sample.a_bytes Sample.logo).
  - reflexivity.
  - reflexivity.
  - exact I.
  - vm_compute. reflexivity.
Defined.

(** * Further properties of the code

    Properties of the functions of the package beyond those the
    specification states: [MakeAppender], what one append changes, the
    appender after [Close], the extractor on files that are not containers,
    several readers on one file, [ReadStuff] and [writeCounter]. *)

(** Reading a block from a file that ends in an index and a trailer. *)
Lemma read_block_container `{!GzipLib} `{!JsonLib} w p body md name entry d :
  let content := body ++ json_Marshal md ++ PutUint64 (uint64 (Z.of_nat (length body))) in
  quiet_file w p content →
  Z.of_nat (length body) < 2 ^ 63 →
  json_faithful json_text_ok md →
  Version md = METADATA_VERSION →
  Data md !! name = Some entry →
  0 ≤ StartFilePtr entry →
  take (Z.to_nat (ZippedSize entry)) (drop (Z.to_nat (StartFilePtr entry)) content) = gzip d →
  ∃ w', read_block p name w = (Returns (d, None), w') ∧ faults w' = [] ∧ files w' = files w.
Proof.
  intros content Hq Hsize Hm Hv He Hs Hblk. unfold read_block.
  destruct (MakeAppendExtractor_quiet w p body md) as (w1 & -> & Hf1 & Hfs1); try done.
  edestruct (ByteArray_quiet w1 (BinAppendExtractor.mk p md) name entry content d)
    as (w2 & -> & Hf2 & Hfs2); try done.
  - destruct Hq as [_ Hp]. split; [done|]. simpl. by rewrite Hfs1.
  - exists w2. split; [done|]. split; [done|]. congruence.
Qed.

(** X1.  [MakeAppender] on a path that holds no file fails, whatever the
    outcomes of the system calls: it returns no appender and an error,
    creates no file and opens no descriptor. *)
Theorem MakeAppender_missing_file (filename : string) (w : World) :
  files w !! filename = None →
  ∃ e w',
    MakeAppender filename w = ((None, Some e), w')
    ∧ files w' = files w
    ∧ handles w' = handles w.
Proof.
  intros Hmiss. unfold MakeAppender, os_OpenFile. simpl. rewrite Hmiss.
  destruct (faults w) as [|[|k] fl]; by eexists _, _.
Qed.

(** A failed [AppendStreamReader] returns the appender it was given. *)
Lemma AppendStreamReader_error_keeps `{!GzipLib} appender name source w a' e w' :
  BinAppender.AppendStreamReader appender name source w = ((a', Some e), w') →
  a' = appender.
Proof.
  unfold BinAppender.AppendStreamReader.
  destruct (File_Seek _ 0 SeekEnd w) as [[startPtr [e1|]] w1]; [by intros [= <- _ _]|].
  destruct (BinAppender.io_Copy _ source w1) as [[d [e2|]] w2]; [by intros [= <- _ _]|].
  destruct (BinAppender.gzWriter_Close _ d w2) as [cerr w3].
  destruct (File_Seek _ 0 SeekEnd w3) as [[endPtr [e3|]] w4]; [by intros [= <- _ _]|].
  intros Heq. discriminate Heq.
Qed.

(** X2.  Whatever [AppendStreamReader] returns, the appender it returns
    has the file handle and the index version of the one it was given,
    and the index entries of all other names are as before.  With an
    error it is the appender that was given; without, the name has an
    entry. *)
Theorem append_changes_one_entry `{!GzipLib} (appender : BinAppender.t) (name : string)
    (source : Reader) (w : World) (a' : BinAppender.t) (err : option error) (w' : World) :
  BinAppender.AppendStreamReader appender name source w = ((a', err), w') →
  BinAppender.fileHandle a' = BinAppender.fileHandle appender
  ∧ Version (BinAppender.metadata a') = Version (BinAppender.metadata appender)
  ∧ (∀ k, k ≠ name →
       Data (BinAppender.metadata a') !! k = Data (BinAppender.metadata appender) !! k)
  ∧ match err with
    | Some _ => a' = appender
    | None => is_Some (Data (BinAppender.metadata a') !! name)
    end.
Proof.
  unfold BinAppender.AppendStreamReader.
  destruct (File_Seek _ 0 SeekEnd w) as [[startPtr [e|]] w1]; [by intros [= <- <- _]|].
  destruct (BinAppender.io_Copy _ source w1) as [[d [e|]] w2]; [by intros [= <- <- _]|].
  destruct (BinAppender.gzWriter_Close _ d w2) as [cerr w3].
  destruct (File_Seek _ 0 SeekEnd w3) as [[endPtr [e|]] w4]; [by intros [= <- <- _]|].
  intros [= <- <- _]. simpl. split; [done|]. split; [done|].
  split; [intros k Hk; by rewrite lookup_insert_ne|]. rewrite lookup_insert_eq. eauto.
Qed.

Lemma File_Write_except n b w :
  same_handles_except n w (File_Write (fd n) b w).2.
Proof.
  unfold File_Write. destruct (handles w !! n) as [h|]; [|done].
  simpl. destruct (of_writable h); [|done]. intros m Hm. simpl.
  by rewrite lookup_insert_ne.
Qed.

Lemma Close_success_releases `{!JsonLib} (appender : BinAppender.t) (w w' : World) :
  BinAppender.Close appender w = (None, w') →
  ∃ n, BinAppender.fileHandle appender = fd n ∧ handles w' !! n = None
       ∧ same_handles_except n w w'.
Proof.
  unfold BinAppender.Close.
  destruct (BinAppender.fileHandle appender) as [|n]; [done|].
  pose proof (File_Seek_except n 0 SeekEnd w) as H1.
  destruct (File_Seek (fd n) 0 SeekEnd w) as [[jsonPtr [e|]] w1]; [done|]. simpl in H1.
  pose proof (File_Write_except n (json_Marshal (BinAppender.metadata appender)) w1) as H2.
  destruct (File_Write (fd n) _ w1) as [[k1 [e|]] w2]; [done|]. simpl in H2.
  pose proof (File_Write_except n (PutUint64 (uint64 jsonPtr)) w2) as H3.
  destruct (File_Write (fd n) _ w2) as [[k2 [e|]] w3]; [done|]. simpl in H3.
  destruct (File_Close_releases n w3) as [H4 H5].
  intros E. rewrite E in H4, H5. simpl in *.
  exists n. split; [done|]. split; [done|].
  eapply same_handles_except_trans; [|exact H4].
  eapply same_handles_except_trans; [|exact H3].
  eapply same_handles_except_trans; done.
Qed.

(** X4.  Once [Close] has succeeded, the appender is of no use:
    [AppendStreamReader] returns the closed-file error and the appender
    and the world as they are, whatever the name and the source; a second
    [Close] returns the closed-file error; [AppendFile] returns an error
    and leaves every file as it is. *)
Theorem use_after_Close `{!GzipLib} `{!JsonLib} (appender : BinAppender.t) (w w' : World) :
  BinAppender.Close appender w = (None, w') →
  (∀ name source,
     BinAppender.AppendStreamReader appender name source w'
     = ((appender, Some ErrClosed), w'))
  ∧ BinAppender.Close appender w' = (Some ErrClosed, w')
  ∧ (∀ source,
       BinAppender.fileHandle appender ≠ fd (next_fd w') →
       ∃ e w'',
         BinAppender.AppendFile appender source w' = ((appender, Some e), w'')
         ∧ files w'' = files w').
Proof.
  intros E. destruct (Close_success_releases appender w w' E) as (n & Hn & Hclosed & _).
  split; [|split].
  - intros name source. unfold BinAppender.AppendStreamReader, File_Seek.
    by rewrite Hn, Hclosed.
  - unfold BinAppender.Close, File_Seek. by rewrite Hn, Hclosed.
  - intros source Hfresh. unfold BinAppender.AppendFile, os_Open.
    pose proof (os_OpenFile_files source false w') as Hfs.
    destruct (os_OpenFile source false w') as [[sourceHandle [e|]] w1] eqn:E1; simpl in Hfs.
    { by eexists _, _. }
    destruct (Data (BinAppender.metadata appender) !! source); [by eexists _, _|].
    assert (Hclosed1 : handles w1 !! n = None).
    { revert E1. unfold os_OpenFile. simpl.
      destruct (match faults w' with [] => Pass | f :: _ => f end); [|done].
      destruct (files w' !! source); [|done]. intros [= <- <-]. simpl.
      rewrite lookup_insert_ne; [done|]. intros Heq. apply Hfresh. by rewrite Hn, Heq. }
    unfold BinAppender.AppendStreamReader, File_Seek. rewrite Hn, Hclosed1.
    by eexists _, _.
Qed.

(** X3.  When [AppendFile] returns an error, the index is either the one
    it was given or that one with an entry for the source path added
    where there was none: the error of closing the source is returned
    after the block has been recorded. *)
Theorem AppendFile_error_index `{!GzipLib} (appender : BinAppender.t) (source : string)
    (w : World) (a' : BinAppender.t) (e : error) (w' : World) :
  BinAppender.AppendFile appender source w = ((a', Some e), w') →
  a' = appender
  ∨ (Data (BinAppender.metadata appender) !! source = None
     ∧ ∃ entry, a' = BinAppender.set_Data appender source entry).
Proof.
  unfold BinAppender.AppendFile.
  destruct (os_Open source w) as [[sourceHandle [e1|]] w1]; [intros [= <- _ _]; by left|].
  destruct (Data (BinAppender.metadata appender) !! source) eqn:Hs;
    [intros [= <- _ _]; by left|].
  destruct (BinAppender.AppendStreamReader appender source (FileReader sourceHandle) w1)
    as [[a1 [e2|]] w2] eqn:E2.
  - intros [= <- _ _]. left.
    by apply (AppendStreamReader_error_keeps _ _ _ _ _ _ _ E2).
  - destruct (File_Close sourceHandle w2) as [cerr w3]. intros [= <- -> _].
    right. split; [done|]. by apply (AppendStreamReader_index _ _ _ _ _ _ E2).
Qed.

(** X7.  An appender closed without an append makes a container: the file
    is what it was, then the index without entries, then the trailer with
    the old length; an extractor opens it, its index is empty, and
    [GetReader] reports every name as not found. *)
Theorem empty_container `{!GzipLib} `{!JsonLib} (w : World) (p : string) (c0 : list byte) :
  faults w = [] →
  files w !! p = Some c0 →
  Z.of_nat (length c0) < 2 ^ 63 →
  ∃ w1 x w2,
    write_container p [] w = (None, w1)
    ∧ contents w1 p
      = c0 ++ json_Marshal (mk_appendedMetadata METADATA_VERSION ∅)
           ++ PutUint64 (uint64 (Z.of_nat (length c0)))
    ∧ MakeAppendExtractor p w1 = ((Some x, None), w2)
    ∧ Data (BinAppendExtractor.metadata x) = ∅
    ∧ ∀ name, BinAppendExtractor.GetReader x name w2
              = ((None, Some (Errorf not_found_msg [name])), w2).
Proof.
  intros Hf Hp Hsize.
  destruct (write_container_quiet w p c0 []) as (w1 & E1 & Hq1 & _); [done|].
  unfold file_after, index_after, body_of in Hq1. simpl in Hq1.
  rewrite app_nil_r in Hq1.
  destruct (MakeAppendExtractor_quiet w1 p c0 (mk_appendedMetadata METADATA_VERSION ∅))
    as (w2 & E2 & _); try done.
  { split; [apply json_version_ok|]. intros name d. simpl. by rewrite lookup_empty. }
  eexists w1, _, w2. split; [done|].
  split; [unfold contents; destruct Hq1 as [_ ->]; done|].
  split; [done|]. split; [done|].
  intros name. unfold BinAppendExtractor.GetReader. simpl. by rewrite lookup_empty.
Qed.


(** ** Blocks an index points at *)

Section BlockAt.
Context `{!GzipLib} `{!JsonLib}.

Lemma block_at_extend body more index name d :
  block_at body index name d → block_at (body ++ more) index name d.
Proof.
  intros (entry & He & Hs & Hlen & Hblk). exists entry.
  split; [done|]. split; [done|]. split; [rewrite length_app; lia|].
  rewrite drop_app_le by lia. rewrite take_app_le; [done|]. rewrite length_drop. lia.
Qed.

Lemma index_of_block_at_new (items : list (string * list byte)) i c acc name d :
  items !! i = Some (name, d) →
  name ∉ (drop (S i) items).*1 →
  Z.of_nat (length (c ++ body_of items)) < 2 ^ 63 →
  block_at (c ++ body_of items) (index_of (length c) items acc) name d.
Proof.
  intros Hi Hlast Hsize.
  pose proof (block_within_body items i name d Hi) as Hin.
  rewrite length_app, length_body_of in Hsize.
  eexists. split; [by apply (index_of_lookup items i)|]. simpl.
  rewrite int64_small by (unfold int64_range; lia). rewrite !Nat2Z.id.
  split; [lia|]. split; [rewrite length_app, length_body_of; lia|].
  pose proof (block_slice items i name d c [] Hi) as Hs. by rewrite app_nil_r in Hs.
Qed.


Lemma read_block_at w p body md name d :
  quiet_file w p (body ++ json_Marshal md ++ PutUint64 (uint64 (Z.of_nat (length body)))) →
  Z.of_nat (length body) < 2 ^ 63 →
  json_faithful json_text_ok md →
  Version md = METADATA_VERSION →
  block_at body (Data md) name d →
  ∃ w', read_block p name w = (Returns (d, None), w') ∧ faults w' = [] ∧ files w' = files w.
Proof.
  intros Hq Hsize Hm Hv Hb.
  apply (block_at_extend _ (json_Marshal md ++ PutUint64 (uint64 (Z.of_nat (length body)))))
    in Hb.
  destruct Hb as (entry & He & Hs & _ & Hblk).
  by apply (read_block_container w p body md name entry d).
Qed.



End BlockAt.

Section Robust.
Context `{!GzipLib} `{!JsonLib}.



End Robust.

Section Retry.
Context `{!GzipLib} `{!JsonLib}.

Lemma Close_index_write_fails fs hs nf tr n p pos c md k :
  hs !! n = Some (mkOpenFile p pos true) →
  fs !! p = Some c →
  ∃ w',
    BinAppender.Close (BinAppender.mk (fd n) md) (mkWorld fs hs nf [Pass; Fail k] tr)
      = (Some EIO, w')
    ∧ appender_ready w' n p (c ++ take k (json_Marshal md)).
Proof.
  intros Hn Hp. unfold BinAppender.Close, File_Seek. simpl. rewrite Hn. simpl.
  unfold contents. simpl. rewrite Hp. simpl. rewrite Z.add_0_r.
  destruct (Z.ltb_spec (Z.of_nat (length c)) 0); [lia|].
  unfold File_Write. simpl. rewrite lookup_insert_eq. simpl.
  unfold contents. simpl. rewrite Hp. simpl.
  eexists. split; [reflexivity|]. rewrite Nat2Z.id, write_at_end.
  split; [done|]. simpl. split; [apply lookup_insert_eq|].
  eexists. apply lookup_insert_eq.
Qed.

(** X5.  [Close] can be called again after the write of the index has
    failed: the first call writes [k] bytes of the index and returns the
    error, the second writes the index and the trailer after them and
    closes the file, and every block reads back from the result. *)
Theorem Close_can_be_retried (w : World) (n : nat) (p : string) (pos : nat)
    (c0 : list byte) (items : list (string * list byte)) (k : nat) :
  faults w = [Pass; Fail k] →
  files w !! p = Some (c0 ++ body_of items) →
  handles w !! n = Some (mkOpenFile p pos true) →
  Forall json_text_ok items.*1 →
  Z.of_nat (length (c0 ++ body_of items ++ take k (json_Marshal (index_after c0 items))))
    < 2 ^ 63 →
  ∃ w1 w2,
    BinAppender.Close (BinAppender.mk (fd n) (index_after c0 items)) w = (Some EIO, w1)
    ∧ BinAppender.Close (BinAppender.mk (fd n) (index_after c0 items)) w1 = (None, w2)
    ∧ ∀ i N B,
        items !! i = Some (N, B) →
        N ∉ (drop (S i) items).*1 →
        ∃ w3, read_block p N w2 = (Returns (B, None), w3).
Proof.
  destruct w as [fs hs nf fl tr]. simpl. intros -> Hp Hn Hnames Hsize.
  rewrite !length_app in Hsize.
  set (md := index_after c0 items) in *.
  destruct (Close_index_write_fails fs hs nf tr n p pos _ md k Hn Hp) as (w1 & E1 & Hr1).
  destruct (Close_quiet w1 n p _ md Hr1) as (w2 & E2 & Hq2 & _).
  exists w1, w2. split; [done|]. split; [done|].
  intros i N B Hi Hlast.
  destruct (read_block_at w2 p ((c0 ++ body_of items) ++ take k (json_Marshal md)) md N B)
    as (w3 & E3 & _); try done.
  - rewrite !length_app. lia.
  - apply index_after_faithful; [done|]. rewrite length_app. lia.
  - apply block_at_extend. apply (index_of_block_at_new items i); [done|done|].
    rewrite length_app. lia.
  - by exists w3.
Qed.

End Retry.

Section Readers.
Context `{!GzipLib} `{!JsonLib}.

(** [GetReader] for a block the index points at, in a world without pending
    failures: a fresh descriptor, left after the block. *)
Lemma GetReader_at fs hs nf tr p md name d content :
  fs !! p = Some content →
  (∃ body rest, content = body ++ rest ∧ block_at body (Data md) name d) →
  ∃ pos tr',
    BinAppendExtractor.GetReader (BinAppendExtractor.mk p md) name (mkWorld fs hs nf [] tr)
    = ((Some (BinAppendReader.mk "" (fd nf) (mk_gzip_Reader (gzip d))), None),
       mkWorld fs (<[nf := mkOpenFile p pos false]> hs) (S nf) [] tr').
Proof.
  intros Hp (body & rest & -> & Hb).
  apply (block_at_extend _ rest) in Hb. destruct Hb as (entry & He & Hs & _ & Hblk).
  unfold BinAppendExtractor.GetReader.
  simpl BinAppendExtractor.metadata. simpl BinAppendExtractor.filename.
  rewrite He. unfold os_Open.
  quiet_step os_OpenFile_quiet.
  erewrite (File_Seek_quiet _ _ _ _ _ _ _ _ _ _ SeekStart)
    by (try apply lookup_insert_eq; eauto; lia).
  cbv beta iota zeta. rewrite !Z.add_0_l. unfold gzip_NewReader.
  erewrite File_Read_quiet;
    [| apply lookup_insert_eq | eauto | rewrite Hblk; apply gzip_nonempty].
  rewrite Hblk. cbv beta iota zeta. rewrite gzip_header.
  eexists _, _. by rewrite !insert_insert_eq.
Qed.

(** [ByteArray] for such a block: the data, and the descriptor it used is
    closed again. *)
Lemma ByteArray_at w p md name d content :
  quiet_file w p content →
  (∃ body rest, content = body ++ rest ∧ block_at body (Data md) name d) →
  ∃ w',
    BinAppendExtractor.ByteArray (BinAppendExtractor.mk p md) name w = (Returns (d, None), w')
    ∧ faults w' = [] ∧ files w' = files w
    ∧ handles w' = delete (next_fd w) (handles w)
    ∧ next_fd w' = S (next_fd w).
Proof.
  destruct w as [fs hs nf fl tr]. intros [Hf Hp] Hb. simpl in *. subst fl.
  destruct (GetReader_at fs hs nf tr p md name d content Hp Hb) as (pos & tr' & E).
  unfold BinAppendExtractor.ByteArray. rewrite E.
  unfold BinAppendReader.ReadAll. cbn [BinAppendReader.gzReader gz_stream].
  rewrite gunzip_gzip. cbv beta iota.
  unfold BinAppendExtractor.deferred_Close, BinAppendReader.Close.
  cbn [BinAppendReader.fileHandle].
  erewrite File_Close_quiet by apply lookup_insert_eq. cbv beta iota zeta.
  unfold File_Close. cbn [handles]. rewrite lookup_delete_eq.
  eexists. split; [reflexivity|]. simpl. by rewrite delete_insert_eq.
Qed.

End Readers.

Section Sessions.
Context `{!GzipLib} `{!JsonLib}.

Lemma NoDup_names_later (items : list (string * list byte)) i N B :
  NoDup items.*1 → items !! i = Some (N, B) → N ∉ (drop (S i) items).*1.
Proof.
  intros Hnd Hi. rewrite <- (take_drop_middle items i (N, B)) in Hnd by done.
  rewrite fmap_app, fmap_cons in Hnd. apply NoDup_app in Hnd as (_ & _ & Hnd).
  by apply NoDup_cons in Hnd as [? _].
Qed.

Lemma ByteArrays_at (reqs : list (string * list byte)) : ∀ w p md content,
  quiet_file w p content →
  (∀ N B, (N, B) ∈ reqs →
     ∃ body rest, content = body ++ rest ∧ block_at body (Data md) N B) →
  ∃ w1,
    ByteArrays (BinAppendExtractor.mk p md) reqs.*1 w
      = ((λ it, Returns (it.2, None)) <$> reqs, w1)
    ∧ faults w1 = [] ∧ files w1 = files w ∧ handles w1 ⊆ handles w.
Proof.
  induction reqs as [|[N B] reqs IH]; intros w p md content Hq Hall.
  - exists w. destruct Hq. done.
  - destruct (ByteArray_at w p md N B content Hq) as (w1 & E1 & Hf1 & Hfs1 & Hh1 & Hn1).
    { apply Hall. left. }
    destruct (IH w1 p md content) as (w2 & E2 & Hf2 & Hfs2 & Hh2).
    + destruct Hq as [_ Hp]. split; [done|]. by rewrite Hfs1.
    + intros N1 B1 Hin. apply Hall. by right.
    + exists w2. rewrite !fmap_cons. cbn [ByteArrays fst snd]. rewrite E1.
      cbv beta iota. rewrite E2.
      split; [done|]. split; [done|]. split; [congruence|].
      etrans; [exact Hh2|]. rewrite Hh1. apply delete_subseteq.
Qed.

(** X14.  One extractor serves any sequence of requests: for a container
    of blocks of distinct names, [ByteArray] called for the blocks in any
    order, any number of times, returns the bytes of each; the files are
    as they were and no descriptor opened on the way is left open. *)
Theorem blocks_read_in_any_order (w : World) (p : string) (c0 : list byte)
    (items reqs : list (string * list byte)) :
  faults w = [] →
  files w !! p = Some c0 →
  NoDup items.*1 →
  Forall json_text_ok items.*1 →
  Z.of_nat (length (c0 ++ body_of items)) < 2 ^ 63 →
  reqs ⊆ items →
  ∃ w1 x w2 w3,
    write_container p items w = (None, w1)
    ∧ MakeAppendExtractor p w1 = ((Some x, None), w2)
    ∧ ByteArrays x reqs.*1 w2 = ((λ it, Returns (it.2, None)) <$> reqs, w3)
    ∧ files w3 = files w1
    ∧ handles w3 ⊆ handles w2.
Proof.
  intros Hf Hp Hnd Hnames Hsize Hsub.
  destruct (write_container_quiet w p c0 items) as (w1 & E1 & Hq1 & _); [done|].
  destruct (MakeAppendExtractor_quiet w1 p (c0 ++ body_of items) (index_after c0 items))
    as (w2 & E2 & Hf2 & Hfs2); try done.
  { by apply index_after_faithful. }
  destruct (ByteArrays_at reqs w2 p (index_after c0 items) (file_after c0 items))
    as (w3 & E3 & _ & Hfs3 & Hh3).
  - destruct Hq1 as [_ Hp1]. split; [done|]. by rewrite Hfs2.
  - intros N B Hin. apply Hsub in Hin. apply list_elem_of_lookup in Hin as [i Hi].
    eexists (c0 ++ body_of items), _. split; [reflexivity|].
    apply (index_of_block_at_new items i); [done| |done].
    by apply (NoDup_names_later items i N B).
  - eexists w1, _, w2, w3. split; [done|]. split; [done|]. split; [done|].
    split; [congruence|done].
Qed.

End Sessions.

Section Sessions2.
Context `{!GzipLib} `{!JsonLib}.

(** X8.  [MakeAppender] on a file that is already a container starts from
    an empty index: after a second session of appends and [Close], the
    extractor finds the blocks of the second session only; the names of
    the first are not found, unless appended again. *)
Theorem second_session_starts_a_new_index (w : World) (p : string) (c0 : list byte)
    (items1 items2 : list (string * list byte)) :
  faults w = [] →
  files w !! p = Some c0 →
  Forall json_text_ok items2.*1 →
  Z.of_nat (length (file_after c0 items1 ++ body_of items2)) < 2 ^ 63 →
  ∃ w1 w2 x w3,
    write_container p items1 w = (None, w1)
    ∧ write_container p items2 w1 = (None, w2)
    ∧ MakeAppendExtractor p w2 = ((Some x, None), w3)
    ∧ (∀ name, name ∉ items2.*1 →
         BinAppendExtractor.GetReader x name w3
         = ((None, Some (Errorf not_found_msg [name])), w3))
    ∧ (∀ i N B, items2 !! i = Some (N, B) → N ∉ (drop (S i) items2).*1 →
         ∃ w4, BinAppendExtractor.ByteArray x N w3 = (Returns (B, None), w4)).
Proof.
  intros Hf Hp Hnames Hsize.
  destruct (write_container_quiet w p c0 items1) as (w1 & E1 & Hq1 & _); [done|].
  destruct (write_container_quiet w1 p (file_after c0 items1) items2)
    as (w2 & E2 & Hq2 & _); [done|].
  set (f1 := file_after c0 items1) in *.
  destruct (MakeAppendExtractor_quiet w2 p (f1 ++ body_of items2) (index_after f1 items2))
    as (w3 & E3 & Hf3 & Hfs3); try done.
  { by apply index_after_faithful. }
  eexists w1, w2, _, w3. split; [done|]. split; [done|]. split; [done|]. split.
  - intros name Hname. unfold BinAppendExtractor.GetReader. simpl.
    rewrite index_of_notin by done. by rewrite lookup_empty.
  - intros i N B Hi Hlast.
    destruct (ByteArray_at w3 p (index_after f1 items2) N B (file_after f1 items2))
      as (w4 & E4 & _).
    + destruct Hq2 as [_ Hp2]. split; [done|]. by rewrite Hfs3.
    + eexists (f1 ++ body_of items2), _. split; [reflexivity|].
      by apply (index_of_block_at_new items2 i).
    + by exists w4.
Qed.

(** X9.  An extractor holds the index it read: after further appends and
    another [Close] on the same file, the extractor made before them
    still returns each of its blocks. *)
Theorem extractor_outlives_later_appends (w : World) (p : string) (c0 : list byte)
    (items1 items2 : list (string * list byte)) :
  faults w = [] →
  files w !! p = Some c0 →
  Forall json_text_ok items1.*1 →
  Z.of_nat (length (c0 ++ body_of items1)) < 2 ^ 63 →
  ∃ w1 x w2 w3,
    write_container p items1 w = (None, w1)
    ∧ MakeAppendExtractor p w1 = ((Some x, None), w2)
    ∧ write_container p items2 w2 = (None, w3)
    ∧ ∀ i N B, items1 !! i = Some (N, B) → N ∉ (drop (S i) items1).*1 →
        ∃ w4, BinAppendExtractor.ByteArray x N w3 = (Returns (B, None), w4).
Proof.
  intros Hf Hp Hnames Hsize.
  destruct (write_container_quiet w p c0 items1) as (w1 & E1 & Hq1 & _); [done|].
  destruct (MakeAppendExtractor_quiet w1 p (c0 ++ body_of items1) (index_after c0 items1))
    as (w2 & E2 & Hf2 & Hfs2); try done.
  { by apply index_after_faithful. }
  destruct (write_container_quiet w2 p (file_after c0 items1) items2)
    as (w3 & E3 & Hq3 & _).
  { destruct Hq1 as [_ Hp1]. split; [done|]. by rewrite Hfs2. }
  eexists w1, _, w2, w3. split; [done|]. split; [done|]. split; [done|].
  intros i N B Hi Hlast.
  destruct (ByteArray_at w3 p (index_after c0 items1) N B
              (file_after (file_after c0 items1) items2)) as (w4 & E4 & _).
  - done.
  - eexists (c0 ++ body_of items1), _. split.
    + unfold file_after at 1. unfold file_after at 1. rewrite <- !app_assoc. reflexivity.
    + by apply (index_of_block_at_new items1 i).
  - by exists w4.
Qed.


End Sessions2.

Section Malformed.
Context `{!JsonLib}.

(** X10.  On a file of fewer than eight bytes [MakeAppendExtractor]
    returns the error of the seek to the trailer, wrapped, and no
    extractor; the descriptor it opened is closed. *)
Theorem short_file_is_rejected (w : World) (p : string) (content : list byte) :
  faults w = [] →
  files w !! p = Some content →
  (length content < 8)%nat →
  ∃ w',
    MakeAppendExtractor p w = ((None, Some (Wrap "Seek in file" EINVAL)), w')
    ∧ files w' = files w
    ∧ handles w' = delete (next_fd w) (handles w).
Proof.
  destruct w as [fs hs nf fl tr]. simpl. intros -> Hp Hlen.
  unfold MakeAppendExtractor, os_Open.
  quiet_step os_OpenFile_quiet.
  unfold File_Seek. simpl. rewrite lookup_insert_eq. simpl.
  unfold contents. simpl. rewrite Hp. simpl.
  destruct (Z.ltb_spec (Z.of_nat (length content) + -8) 0); [|lia].
  unfold File_Close. simpl. rewrite lookup_insert_eq. simpl.
  eexists. split; [reflexivity|]. simpl. by rewrite delete_insert_eq.
Qed.


End Malformed.

Lemma File_Read_files f size w : files (File_Read f size w).2 = files w.
Proof.
  unfold File_Read. destruct f as [|n]; [done|].
  destruct (handles w !! n) as [h|]; [|done]. simpl.
  destruct (faults w) as [|[|k] fl]; simpl; try done.
  all: by destruct (take size _), size.
Qed.

Lemma gzip_NewReader_files `{!GzipLib} f size w : files (gzip_NewReader f size w).2 = files w.
Proof.
  unfold gzip_NewReader. pose proof (File_Read_files f (Z.to_nat size) w) as Hr.
  destruct (File_Read f (Z.to_nat size) w) as [[block [e|]] w1]; [done|].
  by destruct (gzip_header_ok block).
Qed.

Lemma GetReader_files `{!GzipLib} x name w :
  files (BinAppendExtractor.GetReader x name w).2 = files w.
Proof.
  unfold BinAppendExtractor.GetReader.
  destruct (Data (BinAppendExtractor.metadata x) !! name) as [entry|]; [|done].
  unfold os_Open.
  pose proof (os_OpenFile_files (BinAppendExtractor.filename x) false w) as H1.
  destruct (os_OpenFile _ false w) as [[fh [e|]] w1]; simpl in H1; [done|].
  pose proof (File_Seek_files fh (StartFilePtr entry) SeekStart w1) as H2.
  destruct (File_Seek fh _ SeekStart w1) as [[off [e|]] w2]; simpl in H2;
    [simpl; congruence|].
  pose proof (gzip_NewReader_files fh (ZippedSize entry) w2) as H3.
  destruct (gzip_NewReader fh _ w2) as [[gz|e] w3]; simpl in *; congruence.
Qed.

Lemma BinAppendReader_Close_files r w : files (BinAppendReader.Close r w).2 = files w.
Proof.
  unfold BinAppendReader.Close. destruct r as [r|]; [|done].
  pose proof (File_Close_files (BinAppendReader.fileHandle r) w).
  by destruct (File_Close _ w).
Qed.

Lemma deferred_Close_files {A} r (ret : A) w :
  files (BinAppendExtractor.deferred_Close r ret w).2 = files w.
Proof.
  unfold BinAppendExtractor.deferred_Close.
  pose proof (BinAppendReader_Close_files r w).
  by destruct (BinAppendReader.Close r w) as [[?|] ?].
Qed.

Lemma ByteArray_files `{!GzipLib} x name w :
  files (BinAppendExtractor.ByteArray x name w).2 = files w.
Proof.
  unfold BinAppendExtractor.ByteArray.
  pose proof (GetReader_files x name w) as H1.
  destruct (BinAppendExtractor.GetReader x name w) as [[r [e|]] w1]; simpl in H1.
  { rewrite deferred_Close_files. done. }
  destruct (BinAppendReader.ReadAll r) as [[data [e|]]|].
  - by rewrite deferred_Close_files.
  - pose proof (BinAppendReader_Close_files r w1) as H2.
    destruct (BinAppendReader.Close r w1) as [[[e|]|] w2]; simpl in H2.
    + rewrite deferred_Close_files. congruence.
    + rewrite deferred_Close_files. congruence.
    + simpl. congruence.
  - done.
Qed.

Lemma MakeAppendExtractor_files `{!JsonLib} p w :
  files (MakeAppendExtractor p w).2 = files w.
Proof.
  unfold MakeAppendExtractor, os_Open.
  pose proof (os_OpenFile_files p false w) as H1.
  assert (Hc : ∀ f w0, files (File_Close f w0).2 = files w0) by apply File_Close_files.
  destruct (os_OpenFile p false w) as [[fh [e|]] w1]; simpl in H1.
  { pose proof (Hc fh w1). destruct (File_Close fh w1). simpl in *. congruence. }
  pose proof (File_Seek_files fh (-8) SeekEnd w1) as H2.
  destruct (File_Seek fh (-8) SeekEnd w1) as [[off [e|]] w2]; simpl in H2.
  { pose proof (Hc fh w2). destruct (File_Close fh w2). simpl in *. congruence. }
  pose proof (File_Read_files fh 8 w2) as H3.
  destruct (File_Read fh 8 w2) as [[bytes [e|]] w3]; simpl in H3.
  { pose proof (Hc fh w3). destruct (File_Close fh w3). simpl in *. congruence. }
  destruct (negb (length bytes =? 8)%nat).
  { pose proof (Hc fh w3). destruct (File_Close fh w3). simpl in *. congruence. }
  pose proof (File_Seek_files fh (int64 (Uint64 bytes)) SeekStart w3) as H4.
  destruct (File_Seek fh _ SeekStart w3) as [[off' [e|]] w4]; simpl in H4.
  { pose proof (Hc fh w4). destruct (File_Close fh w4). simpl in *. congruence. }
  pose proof (File_ReadToEnd_files fh w4) as H5.
  destruct (File_ReadToEnd fh w4) as [[stream rerr] w5]; simpl in H5.
  pose proof (Hc fh w5) as H6.
  destruct rerr as [e|]; [destruct (File_Close fh w5); simpl in *; congruence|].
  destruct (json_Decode stream) as [m|]; [|destruct (File_Close fh w5); simpl in *; congruence].
  destruct (negb (String.eqb (Version m) METADATA_VERSION));
    [destruct (File_Close fh w5); simpl in *; congruence|].
  destruct (File_Close fh w5) as [[e|] w6]; simpl in *; congruence.
Qed.

(** X12.  The extractor never writes: whatever the outcomes of the system
    calls, [MakeAppendExtractor], [GetReader] and [ByteArray] leave every
    file as it is, and [MakeAppendExtractor] leaves the open descriptors
    as they are. *)
Theorem extractor_is_read_only `{!GzipLib} `{!JsonLib} (p : string)
    (x : BinAppendExtractor.t) (name : string) (w : World) :
  handles w !! next_fd w = None →
  files (MakeAppendExtractor p w).2 = files w
  ∧ handles (MakeAppendExtractor p w).2 = handles w
  ∧ files (BinAppendExtractor.GetReader x name w).2 = files w
  ∧ files (BinAppendExtractor.ByteArray x name w).2 = files w.
Proof.
  intros Hfresh. split; [apply MakeAppendExtractor_files|].
  split; [by apply MakeAppendExtractor_releases|].
  split; [apply GetReader_files|apply ByteArray_files].
Qed.

(** X15.  [ReadStuff(start, size, path)] on a gzip block writes the
    uncompressed bytes to the standard output, prints an empty line and
    the number of bytes, and returns no error; the file it opened is
    still open when it returns.  The bytes are those [ByteArray] returns
    for an index entry with this start and size. *)
Theorem ReadStuff_prints_the_block `{!GzipLib} `{!GzipReaderLib}
    (Println : list Z → World → World) (w : World) (path tty : string)
    (content out d : list byte) (start size : Z) :
  faults w = [] →
  files w !! path = Some content →
  files w !! tty = Some out →
  handles w !! 1%nat = Some (mkOpenFile tty (length out) true) →
  next_fd w ≠ 1%nat →
  0 ≤ start →
  take (Z.to_nat size) (drop (Z.to_nat start) content) = gzip d →
  ∃ w1,
    ReadStuff Println start size path w
      = (None, Println [Z.of_nat (length d)] (Println [] w1))
    ∧ contents w1 tty = out ++ d
    ∧ is_Some (handles w1 !! next_fd w)
    ∧ ∀ md name,
        Data md !! name = Some (mk_appendedData start size) →
        (BinAppendExtractor.ByteArray (BinAppendExtractor.mk path md) name w).1
        = Returns (d, None).
Proof.
  destruct w as [fs hs nf fl tr]. simpl. intros -> Hp Ht Hout Hnf Hs Hblk.
  assert (HBA : ∀ md name,
    Data md !! name = Some (mk_appendedData start size) →
    (BinAppendExtractor.ByteArray (BinAppendExtractor.mk path md) name
       (mkWorld fs hs nf [] tr)).1 = Returns (d, None)).
  { intros md name He.
    edestruct (ByteArray_quiet (mkWorld fs hs nf [] tr) (BinAppendExtractor.mk path md)
                 name (mk_appendedData start size) content d) as (w' & -> & _); done. }
  unfold ReadStuff, os_Open.
  quiet_step os_OpenFile_quiet.
  erewrite (File_Seek_quiet _ _ _ _ _ _ _ _ _ _ SeekStart)
    by (try apply lookup_insert_eq; eauto; lia).
  cbv beta iota zeta. rewrite !Z.add_0_l. unfold gzip_NewReader.
  erewrite File_Read_quiet;
    [| apply lookup_insert_eq | eauto | rewrite Hblk; apply gzip_nonempty].
  rewrite Hblk. cbv beta iota zeta. rewrite gzip_header.
  unfold io_Copy_Stdout. cbn [gz_stream]. rewrite gunzip_gzip.
  destruct d as [|b d].
  - eexists. split; [reflexivity|]. unfold contents. cbn [files handles].
    rewrite Ht, app_nil_r. split; [done|]. split; [|done].
    rewrite lookup_insert_eq. eauto.
  - unfold os_Stdout.
    erewrite File_Write_quiet; [| |exact Ht].
    2:{ rewrite !lookup_insert_ne by done. exact Hout. }
    cbv beta iota zeta.
    eexists. split; [reflexivity|]. unfold contents. cbn [files handles].
    rewrite lookup_insert_eq. split; [done|]. split; [|done].
    rewrite lookup_insert_ne by done. rewrite lookup_insert_eq. eauto.
Qed.

Lemma int64_add_l a b : int64 (int64 a + b) = int64 (a + b).
Proof.
  unfold int64. f_equal.
  replace ((a + 2 ^ 63) mod 2 ^ 64 - 2 ^ 63 + b + 2 ^ 63)
    with ((a + 2 ^ 63) mod 2 ^ 64 + b) by lia.
  rewrite Zplus_mod_idemp_l. f_equal. lia.
Qed.

Lemma int64_add_r a b : int64 (a + int64 b) = int64 (a + b).
Proof. rewrite Z.add_comm, int64_add_l. f_equal. lia. Qed.

Lemma File_Write_counts n b w h :
  handles w !! n = Some h →
  of_pos h = length (contents w (of_path h)) →
  ∃ h',
    handles (File_Write (fd n) b w).2 !! n = Some h'
    ∧ of_path h' = of_path h
    ∧ of_pos h' = length (contents (File_Write (fd n) b w).2 (of_path h))
    ∧ length (contents (File_Write (fd n) b w).2 (of_path h))
      = (length (contents w (of_path h)) + (File_Write (fd n) b w).1.1)%nat.
Proof.
  intros Hn Hpos. unfold File_Write. rewrite Hn. simpl.
  destruct (of_writable h).
  - simpl. unfold contents in *. simpl. rewrite !lookup_insert_eq. simpl.
    rewrite Hpos, write_at_end. eexists. split; [done|]. simpl.
    rewrite length_app. done.
  - simpl. exists h. unfold contents in *. simpl. split; [done|]. split; [done|].
    split; [done|lia].
Qed.

(** X16.  A [writeCounter] made by [newWriteCounter] around a file open
    at its end counts the bytes that reached the file: after any sequence
    of [Write] calls, failed and partial ones included, [Counter] is the
    growth of the file, as an [int64]. *)
Theorem writeCounter_counts_bytes_written (bufs : list (list byte)) (n : nat) (h : OpenFile)
    (w : World) :
  handles w !! n = Some h →
  of_pos h = length (contents w (of_path h)) →
  let '(wc, w') := WriteAll (newWriteCounter (File_Write (fd n))) bufs w in
  writeCounter.Counter wc
  = int64 (Z.of_nat (length (contents w' (of_path h)))
           - Z.of_nat (length (contents w (of_path h)))).
Proof.
  intros Hn Hpos.
  assert (Hgen : ∀ bufs c0 w1 h1,
    int64_range c0 →
    handles w1 !! n = Some h1 → of_path h1 = of_path h →
    of_pos h1 = length (contents w1 (of_path h)) →
    let '(wc, w') := WriteAll (writeCounter.mk c0 (File_Write (fd n))) bufs w1 in
    writeCounter.Counter wc
    = int64 (c0 + (Z.of_nat (length (contents w' (of_path h)))
                   - Z.of_nat (length (contents w1 (of_path h)))))).
  { clear. intros bufs. induction bufs as [|b bufs IH]; intros c0 w1 h1 Hc Hn Hp Hpos.
    - simpl. by rewrite Z.sub_diag, Z.add_0_r, int64_small.
    - cbn [WriteAll]. unfold writeCounter.Write.
      cbn [writeCounter.child writeCounter.Counter].
      rewrite <- Hp in Hpos.
      destruct (File_Write_counts n b w1 h1 Hn Hpos) as (h2 & Hn2 & Hp2 & Hpos2 & Hlen).
      rewrite Hp in Hpos2, Hlen.
      destruct (File_Write (fd n) b w1) as [[k err] w2]. simpl in *.
      specialize (IH (int64 (c0 + int64 (Z.of_nat k))) w2 h2 (int64_in_range _) Hn2
                    (eq_trans Hp2 Hp) (eq_trans (f_equal of_pos eq_refl) Hpos2)).
      destruct (WriteAll _ bufs w2) as [wc w3]. cbv beta iota in IH |- *. rewrite IH.
      rewrite int64_add_l.
      match goal with |- int64 (c0 + int64 ?x + ?y) = _ =>
        replace (c0 + int64 x + y) with (c0 + y + int64 x) by lia end.
      rewrite int64_add_r. f_equal. lia. }
  specialize (Hgen bufs 0 w h ltac:(unfold int64_range; lia) Hn eq_refl Hpos).
  unfold newWriteCounter. destruct (WriteAll _ bufs w) as [wc w1].
  cbv beta iota in Hgen |- *. by rewrite Z.add_0_l in Hgen.
Qed.


(** ** The properties on sample inputs *)

Lemma MakeAppender_missing_file_witness :
  ∃ e w',
    MakeAppender "absent.bin" Sample.world = ((None, Some e), w')
    ∧ files w' = files Sample.world
    ∧ handles w' = handles Sample.world.
Proof.
  apply (MakeAppender_missing_file "absent.bin" Sample.world).
  vm_compute. reflexivity.
Defined.

Lemma append_changes_one_entry_witness :
  BinAppender.fileHandle Runs.append.1.1 = BinAppender.fileHandle Scenario.fresh
  ∧ Version (BinAppender.metadata Runs.append.1.1)
    = Version (BinAppender.metadata Scenario.fresh)
  ∧ (∀ k, k ≠ "a"%string →
       Data (BinAppender.metadata Runs.append.1.1) !! k
       = Data (BinAppender.metadata Scenario.fresh) !! k)
  ∧ match Runs.append.1.2 with
    | Some _ => Runs.append.1.1 = Scenario.fresh
    | None => is_Some (Data (BinAppender.metadata Runs.append.1.1) !! "a"%string)
    end.
Proof.
  apply (@append_changes_one_entry ref_gzip Scenario.fresh "a"
           (BytesReader Sample.a_bytes None) (Scenario.appending Sample.binary [])
           Runs.append.1.1 Runs.append.1.2 Runs.append.2).
  vm_compute. reflexivity.
Defined.

Lemma AppendFile_error_index_witness :
  Runs.append_file_close_fails.1.1 = Scenario.fresh
  ∨ (Data (BinAppender.metadata Scenario.fresh) !! Sample.asset = None
     ∧ ∃ entry,
         Runs.append_file_close_fails.1.1
         = BinAppender.set_Data Scenario.fresh Sample.asset entry).
Proof.
  apply (@AppendFile_error_index ref_gzip Scenario.fresh Sample.asset
           (Scenario.appending Sample.binary [Pass; Pass; Pass; Pass; Pass; Pass; Fail 0])
           Runs.append_file_close_fails.1.1 EIO Runs.append_file_close_fails.2).
  vm_compute. reflexivity.
Defined.

(** The second case occurs: the close of the source fails, and the block
    is in the file and in the index that is returned with the error. *)
Lemma AppendFile_error_after_recording :
  Runs.append_file_close_fails.1.2 = Some EIO
  ∧ Data (BinAppender.metadata Runs.append_file_close_fails.1.1) !! Sample.asset
    = Some (mk_appendedData 4 6)
  ∧ contents Runs.append_file_close_fails.2 Sample.target
    = Sample.binary ++ @gzip ref_gzip Sample.logo.
Proof. vm_compute. done. Qed.

Lemma use_after_Close_witness :
  (∀ name source,
     @BinAppender.AppendStreamReader ref_gzip Scenario.fresh name source Runs.closed
     = ((Scenario.fresh, Some ErrClosed), Runs.closed))
  ∧ @BinAppender.Close ref_json Scenario.fresh Runs.closed = (Some ErrClosed, Runs.closed)
  ∧ (∀ source,
       BinAppender.fileHandle Scenario.fresh ≠ fd (next_fd Runs.closed) →
       ∃ e w'',
         @BinAppender.AppendFile ref_gzip Scenario.fresh source Runs.closed
         = ((Scenario.fresh, Some e), w'')
         ∧ files w'' = files Runs.closed).
Proof.
  apply (@use_after_Close ref_gzip ref_json Scenario.fresh
           (Scenario.appending Sample.binary []) Runs.closed).
  vm_compute. reflexivity.
Defined.

Lemma empty_container_witness :
  ∃ w1 x w2,
    @write_container ref_gzip ref_json Sample.target [] Sample.world = (None, w1)
    ∧ contents w1 Sample.target
      = Sample.binary ++ @json_Marshal ref_json (mk_appendedMetadata METADATA_VERSION ∅)
           ++ PutUint64 (uint64 (Z.of_nat (length Sample.binary)))
    ∧ @MakeAppendExtractor ref_json Sample.target w1 = ((Some x, None), w2)
    ∧ Data (BinAppendExtractor.metadata x) = ∅
    ∧ ∀ name, @BinAppendExtractor.GetReader ref_gzip x name w2
              = ((None, Some (Errorf not_found_msg [name])), w2).
Proof.
  apply (@empty_container ref_gzip ref_json Sample.world Sample.target Sample.binary).
  - reflexivity.
  - vm_compute. reflexivity.
  - vm_compute. reflexivity.
Defined.


Lemma Close_can_be_retried_witness :
  ∃ w1 w2,
    @BinAppender.Close ref_json
      (BinAppender.mk (fd 3) (@index_after ref_gzip Sample.binary Sample.blocks))
      (Scenario.appending (Sample.binary ++ @body_of ref_gzip Sample.blocks) [Pass; Fail 2])
      = (Some EIO, w1)
    ∧ @BinAppender.Close ref_json
        (BinAppender.mk (fd 3) (@index_after ref_gzip Sample.binary Sample.blocks)) w1
      = (None, w2)
    ∧ ∀ i N B,
        Sample.blocks !! i = Some (N, B) →
        N ∉ (drop (S i) Sample.blocks).*1 →
        ∃ w3, @read_block ref_gzip ref_json Sample.target N w2 = (Returns (B, None), w3).
Proof.
  apply (@Close_can_be_retried ref_gzip ref_json
           (Scenario.appending (Sample.binary ++ @body_of ref_gzip Sample.blocks)
              [Pass; Fail 2])
           3%nat Sample.target
           (length (Sample.binary ++ @body_of ref_gzip Sample.blocks))
           Sample.binary Sample.blocks 2%nat).
  - reflexivity.
  - vm_compute. reflexivity.
  - vm_compute. reflexivity.
  - repeat constructor.
  - vm_compute. reflexivity.
Defined.

Lemma second_session_starts_a_new_index_witness :
  ∃ w1 w2 x w3,
    @write_container ref_gzip ref_json Sample.target Sample.blocks Sample.world = (None, w1)
    ∧ @write_container ref_gzip ref_json Sample.target [("c"%string, Sample.logo)] w1
      = (None, w2)
    ∧ @MakeAppendExtractor ref_json Sample.target w2 = ((Some x, None), w3)
    ∧ (∀ name, name ∉ [("c"%string, Sample.logo)].*1 →
         @BinAppendExtractor.GetReader ref_gzip x name w3
         = ((None, Some (Errorf not_found_msg [name])), w3))
    ∧ (∀ i N B, [("c"%string, Sample.logo)] !! i = Some (N, B) →
         N ∉ (drop (S i) [("c"%string, Sample.logo)]).*1 →
         ∃ w4, @BinAppendExtractor.ByteArray ref_gzip x N w3 = (Returns (B, None), w4)).
Proof.
  apply (@second_session_starts_a_new_index ref_gzip ref_json Sample.world Sample.target
           Sample.binary Sample.blocks [("c"%string, Sample.logo)]).
  - reflexivity.
  - vm_compute. reflexivity.
  - repeat constructor.
  - vm_compute. reflexivity.
Defined.

Lemma extractor_outlives_later_appends_witness :
  ∃ w1 x w2 w3,
    @write_container ref_gzip ref_json Sample.target Sample.blocks Sample.world = (None, w1)
    ∧ @MakeAppendExtractor ref_json Sample.target w1 = ((Some x, None), w2)
    ∧ @write_container ref_gzip ref_json Sample.target [("c"%string, Sample.logo)] w2
      = (None, w3)
    ∧ ∀ i N B, Sample.blocks !! i = Some (N, B) →
        N ∉ (drop (S i) Sample.blocks).*1 →
        ∃ w4, @BinAppendExtractor.ByteArray ref_gzip x N w3 = (Returns (B, None), w4).
Proof.
  apply (@extractor_outlives_later_appends ref_gzip ref_json Sample.world Sample.target
           Sample.binary Sample.blocks [("c"%string, Sample.logo)]).
  - reflexivity.
  - vm_compute. reflexivity.
  - repeat constructor.
  - vm_compute. reflexivity.
Defined.


Lemma short_file_is_rejected_witness :
  ∃ w',
    @MakeAppendExtractor ref_json Sample.target (Scenario.holding Sample.binary)
      = ((None, Some (Wrap "Seek in file" EINVAL)), w')
    ∧ files w' = files (Scenario.holding Sample.binary)
    ∧ handles w'
      = delete (next_fd (Scenario.holding Sample.binary))
          (handles (Scenario.holding Sample.binary)).
Proof.
  apply (@short_file_is_rejected ref_json (Scenario.holding Sample.binary) Sample.target
           Sample.binary).
  - reflexivity.
  - vm_compute. reflexivity.
  - vm_compute. lia.
Defined.


Lemma extractor_is_read_only_witness :
  files (@MakeAppendExtractor ref_json Sample.target Sample.other_version_world).2
    = files Sample.other_version_world
  ∧ handles (@MakeAppendExtractor ref_json Sample.target Sample.other_version_world).2
    = handles Sample.other_version_world
  ∧ files (@BinAppendExtractor.GetReader ref_gzip Sample.broken "a"
             Sample.other_version_world).2
    = files Sample.other_version_world
  ∧ files (@BinAppendExtractor.ByteArray ref_gzip Sample.broken "a"
             Sample.other_version_world).2
    = files Sample.other_version_world.
Proof.
  apply (@extractor_is_read_only ref_gzip ref_json Sample.target Sample.broken "a"
           Sample.other_version_world).
  vm_compute. reflexivity.
Defined.

Lemma blocks_read_in_any_order_witness :
  ∃ w1 x w2 w3,
    @write_container ref_gzip ref_json Sample.target Sample.blocks Sample.world = (None, w1)
    ∧ @MakeAppendExtractor ref_json Sample.target w1 = ((Some x, None), w2)
    ∧ @ByteArrays ref_gzip x
        [("b"%string, []); ("a"%string, Sample.a_bytes); ("b"%string, [])].*1 w2
      = ((λ it, Returns (it.2, None))
           <$> [("b"%string, []); ("a"%string, Sample.a_bytes); ("b"%string, [])], w3)
    ∧ files w3 = files w1
    ∧ handles w3 ⊆ handles w2.
Proof.
  apply (@blocks_read_in_any_order ref_gzip ref_json Sample.world Sample.target
           Sample.binary Sample.blocks
           [("b"%string, []); ("a"%string, Sample.a_bytes); ("b"%string, [])]).
  - reflexivity.
  - vm_compute. reflexivity.
  - refine (bool_decide_unpack _ _). vm_compute. exact I.
  - repeat constructor.
  - vm_compute. reflexivity.
  - intros it Hin. apply list_elem_of_In in Hin. apply list_elem_of_In.
    simpl in Hin |- *. tauto.
Defined.

Lemma ReadStuff_prints_the_block_witness :
  ∃ w1,
    @ReadStuff ref_gzip ref_gzip_reader (λ _ w, w) 4 7 Sample.target
      (Scenario.with_stdout (Sample.binary ++ @gzip ref_gzip Sample.a_bytes))
      = (None, w1)
    ∧ contents w1 Scenario.stdout = [] ++ Sample.a_bytes
    ∧ is_Some (handles w1
                 !! next_fd (Scenario.with_stdout
                               (Sample.binary ++ @gzip ref_gzip Sample.a_bytes)))
    ∧ ∀ md name,
        Data md !! name = Some (mk_appendedData 4 7) →
        (@BinAppendExtractor.ByteArray ref_gzip (BinAppendExtractor.mk Sample.target md) name
           (Scenario.with_stdout (Sample.binary ++ @gzip ref_gzip Sample.a_bytes))).1
        = Returns (Sample.a_bytes, None).
Proof.
  apply (@ReadStuff_prints_the_block ref_gzip ref_gzip_reader (λ _ w, w)
           (Scenario.with_stdout (Sample.binary ++ @gzip ref_gzip Sample.a_bytes))
           Sample.target Scenario.stdout
           (Sample.binary ++ @gzip ref_gzip Sample.a_bytes) [] Sample.a_bytes 4 7).
  - reflexivity.
  - vm_compute. reflexivity.
  - vm_compute. reflexivity.
  - vm_compute. reflexivity.
  - vm_compute. lia.
  - lia.
  - vm_compute. reflexivity.
Defined.

Lemma writeCounter_counts_bytes_written_witness :
  let '(wc, w') :=
    WriteAll (newWriteCounter (File_Write (fd 3)))
      [Sample.a_bytes; Sample.logo; Sample.a_bytes]
      (Scenario.appending Sample.binary [Pass; Fail 1; Pass]) in
  writeCounter.Counter wc
  = int64 (Z.of_nat (length (contents w' (of_path (mkOpenFile Sample.target 4 true))))
           - Z.of_nat (length (contents (Scenario.appending Sample.binary [Pass; Fail 1; Pass])
                                 (of_path (mkOpenFile Sample.target 4 true))))).
Proof.
  apply (writeCounter_counts_bytes_written [Sample.a_bytes; Sample.logo; Sample.a_bytes]
           3%nat (mkOpenFile Sample.target 4 true)
           (Scenario.appending Sample.binary [Pass; Fail 1; Pass])).
  - vm_compute. reflexivity.
  - vm_compute. reflexivity.
Defined.
